(** * Personal Expense Tracker ([app.py]): a shallow embedding

    The application keeps its data in two worksheets of a spreadsheet
    ("Expenses" and "Categories"), reads them into in-memory frames and
    derives filtered views and aggregates.  This file embeds the worksheet
    operations the script calls, the script's own functions
    ([load_expenses], [add_expense], [update_expense], [delete_expense],
    [load_categories], [add_category], ...), and the page logic that
    filters and aggregates, and proves properties of them.

    Conventions of the model:
    - a worksheet is the list of its rows, row 1 first; a cell holds a
      text or a number.  [get_all_records] reads the header row as it is
      and turns every other cell whose text reads as a Python [int] or
      [float] into that number ([numericise]); a number written to a cell
      is taken to read back as the same number (how the service stores and
      renders a float is outside the source);
    - the value of a float is a rational ([Q]); [binary64] is the rounding
      of binary floating point.  [Series_sum] is the exact sum of a column,
      the value that the floating-point sum of the libraries approximates;
      [Series_sum_float] is that sum with every addition rounded;
    - a [try: ... except Exception] block is a [match] on an [option]:
      [None] is the raised exception, and the function result is the pair
      of the returned flag and the worksheet after the call. *)

From Stdlib Require Import QArith Qabs Lia Ascii String.
From stdpp Require Import base list sorting strings.

Local Open Scope nat_scope.

(** ** Calendar dates ([datetime.date]) *)

Record calendar_date := mkdate { year : nat; month : nat; day : nat }.

#[global] Instance calendar_date_eq_dec : EqDecision calendar_date.
Proof. solve_decision. Defined.

Definition is_leap (y : nat) : bool :=
  (y mod 4 =? 0) && (negb (y mod 100 =? 0) || (y mod 400 =? 0)).

Definition days_in_month (y m : nat) : nat :=
  match m with
  | 2 => if is_leap y then 29 else 28
  | 4 | 6 | 9 | 11 => 30
  | _ => 31
  end.

(** The values a [datetime.date] can take: years 1..9999 (below
    [100 * 100]) and a day that exists in the month. *)
Definition valid_date (d : calendar_date) : bool :=
  (1 <=? year d) && (year d <? 100 * 100) &&
  (1 <=? month d) && (month d <=? 12) &&
  (1 <=? day d) && (day d <=? days_in_month (year d) (month d)).

(** [date] objects compare as the tuples (year, month, day). *)
Definition date_leb (a b : calendar_date) : bool :=
  (year a <? year b) ||
  ((year a =? year b) &&
   ((month a <? month b) || ((month a =? month b) && (day a <=? day b)))).

Definition date_le (a b : calendar_date) : Prop :=
  year a < year b \/
  (year a = year b /\ (month a < month b \/ (month a = month b /\ day a <= day b))).

(** *** [date.strftime('%Y-%m-%d')]

    The year is written with four digits, which is what the C library
    prints for the years from 1000 on; no statement below depends on how
    an earlier year is written. *)

Definition digit_char (n : nat) : ascii := ascii_of_nat (48 + n mod 10).

Definition zfill2 (n : nat) : string :=
  String (digit_char (n / 10)) (String (digit_char n) EmptyString).

Definition zfill4 (n : nat) : string :=
  String (digit_char (n / 1000)) (String (digit_char (n / 100)) (zfill2 n)).

Definition strftime (d : calendar_date) : string :=
  zfill4 (year d) +:+ "-" +:+ zfill2 (month d) +:+ "-" +:+ zfill2 (day d).

(** *** [pd.to_datetime] on a text cell

    Only the form the application writes, [YYYY-MM-DD], is modelled; any
    other text is taken to be unparseable.  The result is a nanosecond
    timestamp at midnight, kept here as its calendar date (the script only
    ever reads it back through [.dt.date] and [strftime('%Y-%m-%d')]).
    Dates outside the range of such a timestamp, 1677-09-22 to 2262-04-11,
    are rejected, as by the releases of the library with nanosecond
    timestamps only; every statement below that loads a date assumes the
    date within that range. *)

Definition digit_value (c : ascii) : option nat :=
  let n := nat_of_ascii c in
  if (48 <=? n) && (n <=? 57) then Some (n - 48) else None.

Fixpoint digits_value (acc : nat) (cs : list ascii) : option nat :=
  match cs with
  | [] => Some acc
  | c :: cs' =>
      match digit_value c with
      | Some v => digits_value (10 * acc + v) cs'
      | None => None
      end
  end.

Definition Timestamp_min : calendar_date := mkdate 1677 9 22.
Definition Timestamp_max : calendar_date := mkdate 2262 4 11.

Definition in_Timestamp_bounds (d : calendar_date) : bool :=
  date_leb Timestamp_min d && date_leb d Timestamp_max.

Definition parse_iso (s : string) : option calendar_date :=
  match list_ascii_of_string s with
  | [y1; y2; y3; y4; sep1; m1; m2; sep2; d1; d2] =>
      if Ascii.eqb sep1 "-" && Ascii.eqb sep2 "-" then
        match digits_value 0 [y1; y2; y3; y4],
              digits_value 0 [m1; m2],
              digits_value 0 [d1; d2] with
        | Some y, Some m, Some d => Some (mkdate y m d)
        | _, _, _ => None
        end
      else None
  | _ => None
  end.

Definition to_datetime (s : string) : option calendar_date :=
  match parse_iso s with
  | Some d => if valid_date d && in_Timestamp_bounds d then Some d else None
  | None => None
  end.

(** ** Binary floating point ([float])

    A float that is not infinite or NaN is a rational.  [binary64 x] is the
    float nearest to [x]: 53 significant bits, ties to the even
    significand, gradual underflow below [2 ^ -1022].  The exponent is not
    bounded above here; [python_float] treats the overflow. *)

Definition round_half_even (n d : Z) : Z :=
  let q := (n / d)%Z in
  match (2 * (n mod d) ?= d)%Z with
  | Lt => q
  | Gt => (q + 1)%Z
  | Eq => if Z.even q then q else (q + 1)%Z
  end.

Definition binary64 (x : Q) : Q :=
  let n := Z.abs (Qnum x) in
  let d := Zpos (Qden x) in
  if (n =? 0)%Z then 0%Q
  else
    let e0 := (Z.log2 n - Z.log2 d - 52)%Z in
    let below := (n * 2 ^ Z.max 0 (- e0) <? d * 2 ^ Z.max 0 e0 * 2 ^ 52)%Z in
    let e := Z.max (if below then e0 - 1 else e0)%Z (-1074)%Z in
    let m := round_half_even (n * 2 ^ Z.max 0 (- e))%Z (d * 2 ^ Z.max 0 e)%Z in
    Qred (Qmake (Z.sgn (Qnum x) * m * 2 ^ Z.max 0 e)%Z (Z.to_pos (2 ^ Z.max 0 (- e)))).

(** [a + b] on floats. *)
Definition float_add (a b : Q) : Q := binary64 (a + b).

(** ** Worksheets

    The part of the spreadsheet client the script uses.  A worksheet is the
    list of its rows; row [n] of the sheet (1-based, as in the A1 notation)
    is the element of index [n - 1].  The remote call itself is assumed to
    go through: network, quota and authentication faults are not modelled,
    so a call raises only for a reason that lies in its arguments or in
    the content of the worksheet. *)

Inductive special :=
  | Infinity (negative : bool)
  | NotANumber.

(** What a cell holds, and what a read returns for it: a text, a number
    ([int] or finite [float]), or a float that is infinite or NaN (the
    script writes none, but the texts "inf" and "nan" read as one). *)
Inductive cell :=
  | Text (s : string)
  | Number (q : Q)
  | Special (v : special).

Abbreviation row := (list cell).
Abbreviation Worksheet := (list (list cell)).

(** A dictionary built from a header row and a data row. *)
Abbreviation record := (list (cell * cell)).

#[global] Instance Q_eq_dec : EqDecision Q.
Proof. solve_decision. Defined.

#[global] Instance special_eq_dec : EqDecision special.
Proof. solve_decision. Defined.

#[global] Instance cell_eq_dec : EqDecision cell.
Proof. solve_decision. Defined.

Definition blank : cell := Text "".

(** [worksheet.append_row(values)] *)
Definition append_row (ws : Worksheet) (values : row) : option Worksheet :=
  Some (ws ++ [values]).

(** [worksheet.append_rows(rows)] *)
Definition append_rows (ws : Worksheet) (rows : list row) : option Worksheet :=
  Some (ws ++ rows).

(** A row number as the script passes it to the client: a Python [int], or
    a [numpy.int64] taken out of a frame.  The two format alike in the text
    of a range, but only an [int] can be encoded in the body of a request:
    with a [numpy.int64] the encoder raises before anything is sent.  A
    natural number stands for the [int]. *)
Inductive integer :=
  | PyInt (n : nat)
  | NumpyInt64 (n : nat).

Coercion PyInt : nat >-> integer.

(** [worksheet.delete_rows(n)]: the rows below move up by one.  Row 0 does
    not exist; a row below the last written one is empty, and deleting it
    changes nothing that can be read.  The row number goes into the body of
    the request. *)
Definition delete_rows (ws : Worksheet) (n : integer) : option Worksheet :=
  match n with
  | PyInt 0 => None
  | PyInt (S i) => Some (delete i ws)
  | NumpyInt64 _ => None
  end.

(** [worksheet.update('A{n}:D{n}', [values])]: the cells of row [n] covered
    by [values] are overwritten, the cells to their right are kept; writing
    below the last row leaves empty rows in between. *)
Definition overwrite (values old : row) : row :=
  values ++ drop (length values) old.

Definition update (ws : Worksheet) (n : nat) (values : row) : option Worksheet :=
  match n with
  | 0 => None
  | S i =>
      let grown := ws ++ replicate (S i - length ws) [] in
      Some (<[i := overwrite values (default [] (grown !! i))]> grown)
  end.

(** [worksheet.clear()] *)
Definition clear (ws : Worksheet) : option Worksheet := Some [].

(** *** [numericise]: the conversion [get_all_records] applies to a cell

    [[
      if "_" in str(value): return value
      try: value = int(value)
      except ValueError:
          try: value = float(value)
          except ValueError: ...        # the text is kept
    ]]
    [int] and [float] accept white space around the number, a sign, and,
    for [float], a fraction, an exponent and the words [inf], [infinity]
    and [nan] in either case.  The characters of a text are classified
    first; a text with a character that occurs in no number is kept as it
    is.  The conversion is modelled for ASCII texts: a character outside
    ASCII is taken to be of that kind, though Python reads the digits and
    the spaces of other scripts as well.  The limit on the number of
    digits [int] accepts is not modelled. *)

Inductive token :=
  | TDigit (v : nat)
  | TSign (negative : bool)
  | TDot
  | TExp
  | TSpace
  | TLetter (c : ascii)
  | TOther.

(** The letters of [inf], [infinity] and [nan]; [e] is the exponent mark. *)
Definition keyword_letter (n : nat) : bool :=
  (n =? 97) || (n =? 102) || (n =? 105) || (n =? 110) || (n =? 116) || (n =? 121).

Definition classify (c : ascii) : token :=
  let n := nat_of_ascii c in
  if (48 <=? n) && (n <=? 57) then TDigit (n - 48)
  else if n =? 43 then TSign false
  else if n =? 45 then TSign true
  else if n =? 46 then TDot
  else if (n =? 101) || (n =? 69) then TExp
  else if ((9 <=? n) && (n <=? 13)) || (n =? 32) then TSpace
  else if keyword_letter n then TLetter c
  else if keyword_letter (n + 32) then TLetter (ascii_of_nat (n + 32))
  else TOther.

Definition is_other (t : token) : bool :=
  match t with TOther => true | _ => false end.

Fixpoint lstrip (ts : list token) : list token :=
  match ts with
  | TSpace :: ts' => lstrip ts'
  | _ => ts
  end.

Definition strip (ts : list token) : list token :=
  rev (lstrip (rev (lstrip ts))).

Definition split_sign (ts : list token) : bool * list token :=
  match ts with
  | TSign negative :: ts' => (negative, ts')
  | _ => (false, ts)
  end.

Fixpoint span_digits (ts : list token) : list nat * list token :=
  match ts with
  | TDigit v :: ts' => let '(ds, rest) := span_digits ts' in (v :: ds, rest)
  | _ => ([], ts)
  end.

Definition digits_Z (ds : list nat) : Z :=
  fold_left (fun acc v => (10 * acc + Z.of_nat v)%Z) ds 0%Z.

Definition signed (negative : bool) (z : Z) : Z :=
  if negative then (- z)%Z else z.

(** [int(value)] on a stripped text: an optional sign and at least one
    digit, nothing else.  [None] is the [ValueError]. *)
Definition python_int (ts : list token) : option Z :=
  let '(negative, ts1) := split_sign ts in
  match span_digits ts1 with
  | ((_ :: _) as ds, []) => Some (signed negative (digits_Z ds))
  | _ => None
  end.

Fixpoint letters (ts : list token) : option (list ascii) :=
  match ts with
  | [] => Some []
  | TLetter c :: ts' => cons c <$> letters ts'
  | _ => None
  end.

(** The float of a decimal value: the nearest float, or an infinity when
    that is beyond the largest float. *)
Definition float_of_decimal (negative : bool) (x : Q) : cell :=
  let r := binary64 x in
  if Qle_bool (inject_Z (2 ^ 1024)) (Qabs r) then Special (Infinity negative)
  else Number r.

(** [float(value)] on a stripped text: an optional sign, then one of the
    three words, or digits with an optional point and an optional
    exponent, at least one digit before the exponent. *)
Definition python_float (ts : list token) : option cell :=
  let '(negative, ts1) := split_sign ts in
  match letters ts1 with
  | Some word =>
      let w := string_of_list_ascii word in
      if String.eqb w "inf" || String.eqb w "infinity" then Some (Special (Infinity negative))
      else if String.eqb w "nan" then Some (Special NotANumber)
      else None
  | None =>
      let '(int_part, ts2) := span_digits ts1 in
      let '(frac_part, ts3) :=
        match ts2 with
        | TDot :: ts2' => span_digits ts2'
        | _ => ([], ts2)
        end in
      let mantissa := signed negative (digits_Z (int_part ++ frac_part)) in
      let value (exponent : Z) :=
        (inject_Z mantissa * Qpower 10 (exponent - Z.of_nat (length frac_part)))%Q in
      match int_part ++ frac_part, ts3 with
      | [], _ => None
      | _, [] => Some (float_of_decimal negative (value 0%Z))
      | _, TExp :: ts4 =>
          let '(exp_negative, ts5) := split_sign ts4 in
          match span_digits ts5 with
          | ((_ :: _) as ds, []) =>
              Some (float_of_decimal negative (value (signed exp_negative (digits_Z ds))))
          | _ => None
          end
      | _, _ => None
      end
  end.

Definition numericise (value : string) : cell :=
  let ts := classify <$> list_ascii_of_string value in
  if existsb is_other ts then Text value
  else
    match python_int (strip ts) with
    | Some z => Number (inject_Z z)
    | None =>
        match python_float (strip ts) with
        | Some c => c
        | None => Text value
        end
    end.

Definition numericise_cell (c : cell) : cell :=
  match c with
  | Text s => numericise s
  | _ => c
  end.

(** [worksheet.get_all_records()]: row 1 gives the keys, every later row
    one dictionary of its numericised cells; a cell missing at the end of a
    row reads as blank.  [None] is the exception raised when two cells of
    the header row are equal.  The worksheets of the application are as
    wide as their header; the cells of a row beyond the header are left
    out here. *)
Definition get_all_records (ws : Worksheet) : option (list record) :=
  match ws with
  | [] => Some []
  | keys :: values =>
      if bool_decide (NoDup keys) then
        Some ((fun r : row =>
                 zip keys (numericise_cell <$>
                             r ++ replicate (length keys - length r) blank)) <$> values)
      else None
  end.

(** [row[key]]; as in a [dict] built from pairs, the last binding of a key
    is the one read.  [None] is the [KeyError]. *)
Fixpoint record_get (key : string) (r : record) : option cell :=
  match r with
  | [] => None
  | (k, v) :: r' =>
      match record_get key r' with
      | Some v' => Some v'
      | None => if decide (k = Text key) then Some v else None
      end
  end.

(** [worksheet.find(value)]: the first cell, in row order, holding exactly
    that text; the result is its row number. *)
Definition find (ws : Worksheet) (value : string) : option nat :=
  (fun '(i, _) => S i) <$> list_find (fun r : row => Text value ∈ r) ws.

(** The header rows and the seed rows the script writes. *)
Definition expenses_header : row :=
  [Text "Date"; Text "Amount"; Text "Category"; Text "Description"].

Definition categories_header : row := [Text "Category"].

Definition default_categories : list row :=
  [ [Text "Food & Dining"]; [Text "Transportation"]; [Text "Shopping"];
    [Text "Entertainment"]; [Text "Bills & Utilities"]; [Text "Healthcare"];
    [Text "Education"]; [Text "Travel"]; [Text "Groceries"]; [Text "Other"] ].

(** ** The script's functions over the two worksheets *)

(** The result of a function that returns [True] or [False] after working
    on a worksheet: the flag and the worksheet after the call. *)
Definition attempt (ws : Worksheet) (call : option Worksheet) : bool * Worksheet :=
  match call with
  | Some ws' => (true, ws')
  | None => (false, ws)
  end.

(** [get_expenses_worksheet]: [found] is the worksheet titled "Expenses",
    or [None] when the lookup raises [WorksheetNotFound]. *)
Definition get_expenses_worksheet (found : option Worksheet) : Worksheet :=
  match found with
  | Some worksheet => worksheet
  | None => default [] (update [] 1 expenses_header)
  end.

(** [get_categories_worksheet] *)
Definition get_categories_worksheet (found : option Worksheet) : Worksheet :=
  match found with
  | Some worksheet => worksheet
  | None =>
      let worksheet := default [] (update [] 1 categories_header) in
      default worksheet (append_rows worksheet default_categories)
  end.

(** [load_categories]: the values of the "Category" column as they are
    read, numbers included; the empty list when there is no data row and
    when the read or a lookup raises. *)
Definition load_categories (worksheet : Worksheet) : list cell :=
  match get_all_records worksheet with
  | Some [] => []
  | Some data => default [] (mapM (record_get "Category") data)
  | None => []
  end.

(** [add_category] *)
Definition add_category (worksheet : Worksheet) (category : string) : bool * Worksheet :=
  attempt worksheet (append_row worksheet [Text category]).

(** [delete_category] *)
Definition delete_category (worksheet : Worksheet) (category : string) : bool * Worksheet :=
  match find worksheet category with
  | Some cell_row => attempt worksheet (delete_rows worksheet cell_row)
  | None => (false, worksheet)
  end.

(** One row of the expenses frame.  The fields carry the column names the
    page uses after its [rename]: [date], [amount], [category],
    [description], [row_num]. *)
Record Expense := mkExpense {
  date : calendar_date;
  amount : Q;
  category : string;
  description : string;
  row_num : nat
}.

Abbreviation DataFrame := (list Expense).

(** The conversions [load_expenses] applies to the "Date" and "Amount"
    columns.  [pd.to_numeric] keeps a number and raises on a text that
    [numericise] has left a text.  The frame type has a date and a finite
    amount in every row, so the values it has no place for (the missing
    date and amount the script loads for a blank cell, an infinite or NaN
    amount, a "Date" cell that reads as a number) go to the error branch
    here; no statement below is about a worksheet with such a cell. *)
Definition cell_to_datetime (c : cell) : option calendar_date :=
  match c with
  | Text s => to_datetime s
  | _ => None
  end.

Definition cell_to_numeric (c : cell) : option Q :=
  match c with
  | Number q => Some q
  | _ => None
  end.

(** The "Category" and "Description" columns are not converted: the frame
    holds what [get_all_records] returned, a text or a number.  The frame
    type has texts in the two columns; [frame_text] keeps a text and puts
    the empty text where the script holds a number, so that a row is never
    lost.  Statements about the category or the description of a loaded
    record are made where the cell reads as the text itself.  A worksheet
    without a "Category" or a "Description" heading, which the page cannot
    show, goes to the error branch. *)
Definition frame_text (c : cell) : string :=
  match c with
  | Text s => s
  | _ => ""
  end.

Definition convert_record (r : record) : option (nat -> Expense) :=
  d ← record_get "Date" r ≫= cell_to_datetime;
  a ← record_get "Amount" r ≫= cell_to_numeric;
  c ← record_get "Category" r;
  s ← record_get "Description" r;
  Some (mkExpense d a (frame_text c) (frame_text s)).

(** [load_expenses]: the frame of all data rows, each with the number of
    its sheet row ([range(2, len(df) + 2)]); the empty frame when there is
    no data row, and also when the read or a conversion raises. *)
Definition load_expenses (worksheet : Worksheet) : DataFrame :=
  match get_all_records worksheet with
  | Some [] => []
  | Some data =>
      match mapM convert_record data with
      | Some df => imap (fun i (mk : nat -> Expense) => mk (2 + i)) df
      | None => []
      end
  | None => []
  end.

(** The row written for an expense:
    [[date.strftime('%Y-%m-%d'), float(amount), category, description]]. *)
Definition expense_row (date : calendar_date) (amount : Q)
    (category description : string) : row :=
  [Text (strftime date); Number amount; Text category; Text description].

(** [add_expense] *)
Definition add_expense (worksheet : Worksheet) (date : calendar_date) (amount : Q)
    (category description : string) : bool * Worksheet :=
  attempt worksheet (append_row worksheet (expense_row date amount category description)).

(** [update_expense]; the row number only enters the text of the range. *)
Definition update_expense (worksheet : Worksheet) (row_num : nat)
    (date : calendar_date) (amount : Q) (category description : string)
    : bool * Worksheet :=
  attempt worksheet
    (update worksheet row_num (expense_row date amount category description)).

(** [delete_expense] *)
Definition delete_expense (worksheet : Worksheet) (row_num : integer)
    : bool * Worksheet :=
  attempt worksheet (delete_rows worksheet row_num).

(** [clear_all_expenses] *)
Definition clear_all_expenses (worksheet : Worksheet) : bool * Worksheet :=
  attempt worksheet (clear worksheet ≫= fun ws => update ws 1 expenses_header).

(** The worksheets the application itself produces: the header row followed
    by rows written by [add_expense] or [update_expense]. *)
Definition written_row (r : row) : Prop :=
  exists d a c s,
    r = expense_row d a c s /\ valid_date d = true /\ in_Timestamp_bounds d = true.

Definition ledger (worksheet : Worksheet) : Prop :=
  exists rows, worksheet = expenses_header :: rows /\ Forall written_row rows.

(** A text that is sure to read back as itself: the empty text, and a text
    with a printable ASCII character that occurs in no number (a letter
    other than those of [inf], [infinity], [nan] and the exponent mark, a
    punctuation mark other than the sign and the point, an underscore). *)
Definition wordy (c : ascii) : bool :=
  (33 <=? nat_of_ascii c) && (nat_of_ascii c <? 127) && is_other (classify c).

Definition stays_text (s : string) : bool :=
  String.eqb s "" || existsb wordy (list_ascii_of_string s).

(** The ledgers whose categories and descriptions are all of that kind. *)
Definition text_row (r : row) : Prop :=
  exists d a c s,
    r = expense_row d a c s /\ valid_date d = true /\ in_Timestamp_bounds d = true /\
    stays_text c = true /\ stays_text s = true.

Definition text_ledger (worksheet : Worksheet) : Prop :=
  exists rows, worksheet = expenses_header :: rows /\ Forall text_row rows.

(** The largest position of a frame (0 for the empty frame). *)
Definition max_row_num (df : DataFrame) : nat :=
  foldr (fun e m => Nat.max (row_num e) m) 0 df.

(** The position the next appended record gets. *)
Definition next_row_num (df : DataFrame) : nat :=
  match df with
  | [] => 2
  | _ => max_row_num df + 1
  end.

(** ** The page: category form, summary metrics, filters and aggregates *)

(** What the "Add New Category" form does on a run of the script.
    [DuplicateCategory] is the branch that shows the warning
    "Category already exists!" and calls nothing. *)
Inductive add_category_outcome :=
  | NothingSubmitted
  | DuplicateCategory
  | CategoryAdded
  | CategoryNotAdded.

Definition add_category_form (categories : list cell) (categories_worksheet : Worksheet)
    (add_cat_btn : bool) (new_category : string) : add_category_outcome * Worksheet :=
  if add_cat_btn && negb (String.eqb new_category "") then
    if bool_decide (Text new_category ∈ categories) then
      (DuplicateCategory, categories_worksheet)
    else
      match add_category categories_worksheet new_category with
      | (true, ws) => (CategoryAdded, ws)
      | (false, ws) => (CategoryNotAdded, ws)
      end
  else (NothingSubmitted, categories_worksheet).

(** A float result that may be NaN. *)
Inductive pyfloat :=
  | Finite (q : Q)
  | NaN.

(** [Series.sum()] and [Series.mean()] of a numeric column, as exact
    values. *)
Definition Series_sum (s : list Q) : Q := foldr Qplus 0%Q s.

(** The sum of a column of floats with every addition rounded, the values
    taken in order: what the libraries compute for a column of fewer than
    eight values (longer columns are added in blocks).  The sum of a group
    is the same for a group of at most two rows (from the third row on a
    correction term enters). *)
Definition Series_sum_float (s : list Q) : Q := fold_left float_add s 0%Q.

Definition Series_mean (s : list Q) : pyfloat :=
  match s with
  | [] => NaN
  | _ => Finite (Series_sum s / inject_Z (Z.of_nat (length s)))
  end.

(** The "Average Transaction" metric of the main content: the script shows
    the summary metrics of the whole frame [df], and only in the [else]
    branch of [if len(df) == 0]; [None] is the branch that shows the start
    prompt and no metric. *)
Definition average_transaction (df : DataFrame) : option pyfloat :=
  if length df =? 0 then None else Some (Series_mean (amount <$> df)).

(** The value the "Min Amount" input starts with. *)
Definition default_min_amount : Q := 0%Q.

(** [filtered_df]: the rows of [df] selected by the conjunction of the four
    masks. *)
Definition filtered_df (df : DataFrame) (date_range : calendar_date * calendar_date)
    (selected_categories : list string) (min_amount : Q) : DataFrame :=
  List.filter
    (fun e =>
       date_leb (fst date_range) (date e) &&
       date_leb (date e) (snd date_range) &&
       bool_decide (category e ∈ selected_categories) &&
       Qle_bool min_amount (amount e))
    df.

(** [Series.unique()]: the distinct values in order of first appearance. *)
Fixpoint unique {A} `{EqDecision A} (l : list A) : list A :=
  match l with
  | [] => []
  | x :: l' => x :: List.filter (fun y => negb (bool_decide (y = x))) (unique l')
  end.

(** [df.groupby('category')['amount'].sum()]: one entry per distinct
    category, keys in ascending order, each with the sum of the amounts of
    its rows.  [groupby_category] takes the way of adding the amounts of a
    group as [sum]; [groupby_category_sum] has the exact sums. *)
Definition group_amounts (df : DataFrame) (k : string) : list Q :=
  amount <$> List.filter (fun e => bool_decide (category e = k)) df.

Definition groupby_category (sum : list Q -> Q) (df : DataFrame) : list (string * Q) :=
  (fun k => (k, sum (group_amounts df k))) <$>
  merge_sort String.le (unique (category <$> df)).

Definition groupby_category_sum (df : DataFrame) : list (string * Q) :=
  groupby_category Series_sum df.

(** [Series.sort_values(ascending=False)] with the default sort kind, which
    is not a stable one: the result holds the same entries with the values
    in non-increasing order, and nothing more is promised about entries of
    equal value.  [sort_values_descending s out] says that [out] is such a
    result for [s]. *)
Definition value_ge (x y : string * Q) : Prop := (snd y <= snd x)%Q.

Definition sort_values_descending (s out : list (string * Q)) : Prop :=
  s ≡ₚ out /\ StronglySorted value_ge out.

(** [category_spending], the value of
    [groupby('category')['amount'].sum().sort_values(ascending=False)]. *)
Definition category_spending (fdf : DataFrame) (out : list (string * Q)) : Prop :=
  sort_values_descending (groupby_category_sum fdf) out.

#[global] Instance value_ge_dec : RelDecision value_ge.
Proof.
  intros x y. unfold value_ge.
  destruct (Qlt_le_dec (snd x) (snd y)) as [Hlt | Hle].
  - right. intros Hle. exact (Qlt_not_le _ _ Hlt Hle).
  - left. exact Hle.
Defined.

(** The sort as a function.  The entries are ordered by value, greater
    first; where the sort puts an entry among those of the same value
    depends on the sorting routine of the platform and is not a property
    of the script.  [rank] stands for that choice: among entries of equal
    value the one whose label has the smaller rank comes first.  The sums
    are taken by [sum], whatever way of adding the column that is. *)
Definition before (rank : string -> nat) (x y : string * Q) : Prop :=
  (snd y < snd x)%Q \/ ((snd x == snd y)%Q /\ rank (fst x) <= rank (fst y)).

#[global] Instance before_dec rank : RelDecision (before rank).
Proof.
  intros x y. unfold before.
  destruct (Qlt_le_dec (snd y) (snd x)) as [Hlt | Hle].
  - left. left. exact Hlt.
  - destruct (Qeq_dec (snd x) (snd y)) as [Heq | Hne].
    + destruct (le_dec (rank (fst x)) (rank (fst y))) as [Hr | Hr].
      * left. right. split; assumption.
      * right. intros [Hlt | [_ Hr']]; [|exact (Hr Hr')].
        exact (Qlt_not_le _ _ Hlt Hle).
    + right. intros [Hlt | [Heq _]]; [|exact (Hne Heq)].
      exact (Qlt_not_le _ _ Hlt Hle).
Defined.

Definition category_spending_by (sum : list Q -> Q) (rank : string -> nat)
    (fdf : DataFrame) : list (string * Q) :=
  merge_sort (before rank) (groupby_category sum fdf).

(** The place of a label in a list of labels.  With the labels of a
    result of the sort, it is the rank that gives that result. *)
Fixpoint place (keys : list string) (k : string) : nat :=
  match keys with
  | [] => 0
  | k' :: keys' => if String.eqb k k' then 0 else S (place keys' k)
  end.

(** The order of the specification: descending by sum, equal sums by label
    ascending. *)
Definition sum_then_label (x y : string * Q) : Prop :=
  (snd y < snd x)%Q \/ ((snd x == snd y)%Q /\ String.le (fst x) (fst y)).

(** [a / b] on floats; [None] is the division fault. *)
Definition true_divide (a b : Q) : option Q :=
  if Qeq_bool b 0 then None else Some (a / b)%Q.

(** The "Daily Average" statistic:
    [filtered_df['amount'].sum() / max(len(filtered_df['date'].unique()), 1)]. *)
Definition daily_divisor (fdf : DataFrame) : nat :=
  Nat.max (length (unique (date <$> fdf))) 1.

Definition daily_average (fdf : DataFrame) : option Q :=
  true_divide (Series_sum (amount <$> fdf)) (inject_Z (Z.of_nat (daily_divisor fdf))).

(** ** Abstraction used in the proofs: a ledger as the list of its entries *)

Definition entry := (calendar_date * Q * string * string)%type.

Definition entry_row (x : entry) : row :=
  let '(d, a, c, s) := x in expense_row d a c s.

Definition entry_expense (x : entry) (n : nat) : Expense :=
  let '(d, a, c, s) := x in
  mkExpense d a (frame_text (numericise c)) (frame_text (numericise s)) n.

Definition entry_text (x : entry) : Prop :=
  let '(d, a, c, s) := x in stays_text c = true /\ stays_text s = true.

Definition entry_ok (x : entry) : Prop :=
  let '(d, a, c, s) := x in valid_date d = true /\ in_Timestamp_bounds d = true.

Definition sheet_of (entries : list entry) : Worksheet :=
  expenses_header :: (entry_row <$> entries).

(** The dictionary [get_all_records] builds for a row under the header of
    a ledger. *)
Definition read_row (r : row) : record :=
  zip expenses_header
    (numericise_cell <$> r ++ replicate (length expenses_header - length r) blank).

Definition frame_from (k : nat) (entries : list entry) : DataFrame :=
  imap (fun i x => entry_expense x (k + i)) entries.

Definition frame_of (entries : list entry) : DataFrame := frame_from 2 entries.

(** A record moved to another position, and the renumbering a deletion at
    position [p] causes. *)
Definition with_row_num (n : nat) (e : Expense) : Expense :=
  mkExpense (date e) (amount e) (category e) (description e) n.

Definition shift_up (p : nat) (e : Expense) : Expense :=
  if p <? row_num e then with_row_num (row_num e - 1) e else e.

(** The text of a date as the worksheet stores it: ten characters,
    [YYYY-MM-DD]. *)
Definition is_digit (c : ascii) : bool :=
  match digit_value c with Some _ => true | None => false end.

Definition iso_shape (s : string) : bool :=
  match list_ascii_of_string s with
  | [y1; y2; y3; y4; sep1; m1; m2; sep2; d1; d2] =>
      forallb is_digit [y1; y2; y3; y4; m1; m2; d1; d2] &&
      Ascii.eqb sep1 "-" && Ascii.eqb sep2 "-"
  | _ => false
  end.

(** The worksheets [get_categories_worksheet] produces and [add_category]
    and [delete_category] maintain: the header row, then one row per
    category.  [first_cell] is what the "Category" column reads in a row. *)
Definition registry (worksheet : Worksheet) : Prop :=
  exists rows, worksheet = categories_header :: rows.

Definition first_cell (r : row) : cell := default blank (head r).

(** The conditions of the filter as propositions, with their decision
    procedures. *)
#[global] Instance date_le_dec : RelDecision date_le.
Proof. intros a b. unfold date_le. apply _. Defined.

#[global] Instance Qle_dec : RelDecision Qle.
Proof.
  intros x y. destruct (Qlt_le_dec y x) as [Hlt | Hle].
  - right. intros Hle. exact (Qlt_not_le _ _ Hlt Hle).
  - left. exact Hle.
Defined.

Definition selected (date_range : calendar_date * calendar_date)
    (selected_categories : list string) (min_amount : Q) (e : Expense) : Prop :=
  date_le (fst date_range) (date e) /\ date_le (date e) (snd date_range) /\
  category e ∈ selected_categories /\ (min_amount <= amount e)%Q.

#[global] Instance selected_dec date_range selected_categories min_amount e :
  Decision (selected date_range selected_categories min_amount e).
Proof. unfold selected. apply _. Defined.

(** ** A sample ledger: three expenses, as [add_expense] writes them *)

Definition sample_ledger : Worksheet :=
  [ expenses_header;
    expense_row (mkdate 2024 1 1) 10 "Food" "lunch";
    expense_row (mkdate 2024 1 2) 20 "Transport" "bus";
    expense_row (mkdate 2024 1 3) 5 "Food" "snack" ].

Definition sample_frame : DataFrame :=
  [ mkExpense (mkdate 2024 1 1) 10 "Food" "lunch" 2;
    mkExpense (mkdate 2024 1 2) 20 "Transport" "bus" 3;
    mkExpense (mkdate 2024 1 3) 5 "Food" "snack" 4 ].

(** A frame with the amounts 1.1, 4.35 and 1.1, as floats. *)
Definition float_frame : DataFrame :=
  [ mkExpense (mkdate 2024 1 1) (binary64 (11 # 10)) "A" "" 2;
    mkExpense (mkdate 2024 1 1) (binary64 (435 # 100)) "B" "" 3;
    mkExpense (mkdate 2024 1 2) (binary64 (11 # 10)) "A" "" 4 ].

(** A frame with four categories of which two and two have the same sum,
    and an order of the labels that puts the later label first. *)
Definition tied_frame : DataFrame :=
  [ mkExpense (mkdate 2024 1 1) (3 # 2) "A" "" 2;
    mkExpense (mkdate 2024 1 1) (3 # 2) "B" "" 3;
    mkExpense (mkdate 2024 1 1) (5 # 2) "C" "" 4;
    mkExpense (mkdate 2024 1 1) (5 # 2) "D" "" 5 ].

Definition later_label_first (k : string) : nat :=
  if String.eqb k "D" then 0
  else if String.eqb k "C" then 1
  else if String.eqb k "B" then 2
  else 3.

(** ** More of the page: defaults of the filters, daily sums, rankings,
    the highest expense, the edit form and the two confirmation buttons *)

(** The values the filter inputs start with: the range from the earliest
    to the latest date of the frame, every category of the frame, and the
    minimum amount 0.  The page reaches this code only when the frame has a
    row; [None] is the other branch. *)
Definition min_date (a b : calendar_date) : calendar_date :=
  if date_leb a b then a else b.

Definition max_date (a b : calendar_date) : calendar_date :=
  if date_leb a b then b else a.

Definition default_date_range (df : DataFrame) : option (calendar_date * calendar_date) :=
  match df with
  | [] => None
  | e :: df' =>
      Some (foldr min_date (date e) (date <$> df'),
            foldr max_date (date e) (date <$> df'))
  end.

Definition available_categories (df : DataFrame) : list string :=
  unique (category <$> df).

Definition default_filtered_df (df : DataFrame) : option DataFrame :=
  date_range ← default_date_range df;
  Some (filtered_df df date_range (available_categories df) default_min_amount).

(** [daily_spending]:
    [filtered_df.groupby(filtered_df['date'].dt.date)['amount'].sum().reset_index()],
    one row per distinct date, dates ascending, with the sum of the amounts
    of that date. *)
Definition day_amounts (fdf : DataFrame) (d : calendar_date) : list Q :=
  amount <$> List.filter (fun e => bool_decide (date e = d)) fdf.

Definition daily_spending (fdf : DataFrame) : list (calendar_date * Q) :=
  (fun d => (d, Series_sum (day_amounts fdf d))) <$>
  merge_sort date_le (unique (date <$> fdf)).


(** [filtered_df['category'].value_counts()]: the number of rows of each
    distinct category, the counts in non-increasing order; as for
    [sort_values], the order of equal counts is left open.  [freq] is its
    [.head(3)]. *)
Definition category_counts (fdf : DataFrame) : list (string * nat) :=
  (fun k => (k, length (List.filter (fun e => bool_decide (category e = k)) fdf))) <$>
  unique (category <$> fdf).

Definition count_ge (x y : string * nat) : Prop := snd y <= snd x.

Definition value_counts (fdf : DataFrame) (out : list (string * nat)) : Prop :=
  category_counts fdf ≡ₚ out /\ StronglySorted count_ge out.

Definition freq (fdf : DataFrame) (out : list (string * nat)) : Prop :=
  exists full, value_counts fdf full /\ out = take 3 full.

(** [df['amount'].idxmax()]: the position of the first occurrence of the
    largest value; [None] is the error raised on an empty column.
    [most_expensive] is [df.loc[df['amount'].idxmax()]]. *)
Fixpoint idxmax_from (i best_i : nat) (best : Q) (s : list Q) : nat :=
  match s with
  | [] => best_i
  | x :: s' =>
      if Qle_bool x best then idxmax_from (S i) best_i best s'
      else idxmax_from (S i) i x s'
  end.

Definition idxmax (s : list Q) : option nat :=
  match s with
  | [] => None
  | x :: s' => Some (idxmax_from 1 0 x s')
  end.

Definition most_expensive (df : DataFrame) : option Expense :=
  i ← idxmax (amount <$> df); df !! i.

(** The category the edit form starts with:
    [categories.index(selected_row['category'])] when the category of the
    record is in [categories], else 0. *)
Definition edit_category_index (categories : list cell) (category : string) : nat :=
  if bool_decide (Text category ∈ categories) then
    default 0 (fst <$> list_find (fun c => c = Text category) categories)
  else 0.

(** The "Delete This Transaction" button.  [confirm_delete] is
    [st.session_state.get('confirm_delete')]; the result is its new value,
    the worksheet after the click and what the page reports.  The page
    passes [selected_row['row_num']] to [delete_expense]: the value of the
    position column in the row it took out of the frame, a
    [numpy.int64]. *)
Inductive click_outcome :=
  | AskedToConfirm
  | Executed
  | ExecutionFailed.

Definition delete_transaction_button (confirm_delete : option nat)
    (selected_idx row_num : nat) (expenses_worksheet : Worksheet)
    : option nat * Worksheet * click_outcome :=
  if bool_decide (confirm_delete = Some selected_idx) then
    match delete_expense expenses_worksheet (NumpyInt64 row_num) with
    | (true, ws) => (None, ws, Executed)
    | (false, ws) => (confirm_delete, ws, ExecutionFailed)
    end
  else (Some selected_idx, expenses_worksheet, AskedToConfirm).

(** The "Clear All Data" button and the "Cancel" button shown while
    [confirm_clear] is set. *)
Definition clear_all_data_button (confirm_clear : bool) (expenses_worksheet : Worksheet)
    : bool * Worksheet * click_outcome :=
  if confirm_clear then
    match clear_all_expenses expenses_worksheet with
    | (true, ws) => (false, ws, Executed)
    | (false, ws) => (confirm_clear, ws, ExecutionFailed)
    end
  else (true, expenses_worksheet, AskedToConfirm).

Definition cancel_button (confirm_clear : bool) : bool := false.

(** A sequence of runs of the script in each of which the user presses one
    of the two buttons; the "Cancel" button exists only while
    [confirm_clear] is set. *)
Inductive clear_event :=
  | PressClearAllData
  | PressCancel.

Definition clear_step (state : bool * Worksheet) (ev : clear_event) : bool * Worksheet :=
  let '(confirm_clear, ws) := state in
  match ev with
  | PressClearAllData => fst (clear_all_data_button confirm_clear ws)
  | PressCancel => if confirm_clear then (cancel_button confirm_clear, ws) else state
  end.

Definition clear_run (state : bool * Worksheet) (events : list clear_event)
    : bool * Worksheet :=
  foldl clear_step state events.

(** A registry worksheet as the application writes it: one single-cell row
    per label. *)
Definition registry_of (labels : list string) : Worksheet :=
  categories_header :: ((fun l => [Text l]) <$> labels).

(** * Properties *)

(** ** Dates: order, formatting and parsing *)

Lemma date_leb_le a b : date_leb a b = true <-> date_le a b.
Proof.
  unfold date_leb, date_le.
  rewrite orb_true_iff, !andb_true_iff, orb_true_iff, andb_true_iff.
  rewrite !Nat.ltb_lt, !Nat.eqb_eq, Nat.leb_le. tauto.
Qed.

Lemma digit_value_char n : digit_value (digit_char n) = Some (n mod 10).
Proof.
  unfold digit_value, digit_char.
  pose proof (Nat.mod_upper_bound n 10 ltac:(lia)) as Hlt.
  rewrite nat_ascii_embedding by lia.
  replace (48 <=? 48 + n mod 10) with true by (symmetry; apply Nat.leb_le; lia).
  replace (48 + n mod 10 <=? 57) with true by (symmetry; apply Nat.leb_le; lia).
  simpl. f_equal. lia.
Qed.

Lemma digits_value_zfill2 n :
  n < 100 ->
  digits_value 0 [digit_char (n / 10); digit_char n] = Some n.
Proof.
  intros Hn. cbn [digits_value]. rewrite !digit_value_char. f_equal.
  pose proof (Nat.div_mod_eq n 10).
  assert (n / 10 < 10) by (apply Nat.Div0.div_lt_upper_bound; lia).
  rewrite (Nat.mod_small (n / 10) 10) by lia. lia.
Qed.

Lemma digits_value_zfill4 n :
  n < 100 * 100 ->
  digits_value 0
    [digit_char (n / 1000); digit_char (n / 100); digit_char (n / 10); digit_char n]
  = Some n.
Proof.
  intros Hn. cbn [digits_value]. rewrite !digit_value_char. f_equal.
  assert (n / 1000 < 10) by (apply Nat.Div0.div_lt_upper_bound; lia).
  rewrite (Nat.mod_small (n / 1000) 10) by lia.
  replace (n / 1000) with (n / 100 / 10) by (rewrite Nat.Div0.div_div; reflexivity).
  replace (n / 100) with (n / 10 / 10) by (rewrite Nat.Div0.div_div; reflexivity).
  pose proof (Nat.div_mod_eq n 10).
  pose proof (Nat.div_mod_eq (n / 10) 10).
  pose proof (Nat.div_mod_eq (n / 10 / 10) 10).
  lia.
Qed.

Lemma parse_iso_strftime d :
  year d < 100 * 100 -> month d < 100 -> day d < 100 ->
  parse_iso (strftime d) = Some d.
Proof.
  intros Hy Hm Hd. destruct d as [y m dd]. cbn [year month day] in *.
  unfold parse_iso, strftime, zfill4, zfill2.
  cbv [String.append list_ascii_of_string year month day].
  cbn [Ascii.eqb Bool.eqb andb].
  rewrite digits_value_zfill4, !digits_value_zfill2 by assumption.
  reflexivity.
Qed.

Lemma valid_date_bounds d :
  valid_date d = true ->
  year d < 100 * 100 /\ month d < 100 /\ day d < 100.
Proof.
  unfold valid_date. rewrite !andb_true_iff, !Nat.leb_le, Nat.ltb_lt.
  intros [[[[[_ Hy] _] Hm] _] Hd].
  assert (days_in_month (year d) (month d) <= 31).
  { unfold days_in_month.
    destruct (month d) as [|[|[|[|[|[|[|[|[|[|[|[|?]]]]]]]]]]]];
      try destruct (is_leap _); lia. }
  lia.
Qed.

Lemma to_datetime_strftime d :
  valid_date d = true -> in_Timestamp_bounds d = true ->
  to_datetime (strftime d) = Some d.
Proof.
  intros Hv Hb. unfold to_datetime.
  destruct (valid_date_bounds d Hv) as (Hy & Hm & Hd).
  rewrite parse_iso_strftime by assumption.
  rewrite Hv, Hb. reflexivity.
Qed.

Lemma iso_shape_strftime d : iso_shape (strftime d) = true.
Proof.
  destruct d as [y m dd].
  unfold iso_shape, strftime, zfill4, zfill2, is_digit.
  cbv [String.append list_ascii_of_string year month day forallb].
  rewrite !digit_value_char. reflexivity.
Qed.

(** ** Texts that read back as texts *)

Lemma classify_digit_char n : classify (digit_char n) = TDigit (n mod 10).
Proof.
  unfold classify, digit_char.
  pose proof (Nat.mod_upper_bound n 10 ltac:(lia)) as Hlt.
  rewrite nat_ascii_embedding by lia.
  replace (48 <=? 48 + n mod 10) with true by (symmetry; apply Nat.leb_le; lia).
  replace (48 + n mod 10 <=? 57) with true by (symmetry; apply Nat.leb_le; lia).
  cbn [andb]. f_equal. lia.
Qed.

Lemma numericise_strftime d : numericise (strftime d) = Text (strftime d).
Proof.
  destruct d as [y m dd].
  unfold numericise, strftime, zfill4, zfill2.
  cbv [String.append list_ascii_of_string year month day].
  cbn [fmap list_fmap]. rewrite !classify_digit_char. reflexivity.
Qed.

Lemma existsb_wordy_is_other (l : list ascii) :
  existsb wordy l = true -> existsb is_other (classify <$> l) = true.
Proof.
  induction l as [|c l IH]; [discriminate|].
  cbn [existsb fmap list_fmap]. fold (classify <$> l).
  rewrite !orb_true_iff. intros [Hc | Hl]; [left | right; apply IH, Hl].
  unfold wordy in Hc. apply andb_true_iff in Hc as [_ Hc]. exact Hc.
Qed.

Lemma stays_text_numericise s : stays_text s = true -> numericise s = Text s.
Proof.
  unfold stays_text. rewrite orb_true_iff. intros [He | Hw].
  - apply String.eqb_eq in He. subst s. reflexivity.
  - unfold numericise. rewrite existsb_wordy_is_other by assumption. reflexivity.
Qed.

Lemma entry_expense_text d a c s n :
  stays_text c = true -> stays_text s = true ->
  entry_expense (d, a, c, s) n = mkExpense d a c s n.
Proof.
  intros Hc Hs. unfold entry_expense.
  rewrite (stays_text_numericise c Hc), (stays_text_numericise s Hs). reflexivity.
Qed.

(** ** Reading a ledger worksheet *)

Ltac decide_keys :=
  repeat (case_decide; try discriminate; try congruence).

Lemma record_get_expenses v1 v2 v3 v4 :
  let r := zip expenses_header [v1; v2; v3; v4] in
  record_get "Date" r = Some v1 /\ record_get "Amount" r = Some v2 /\
  record_get "Category" r = Some v3 /\ record_get "Description" r = Some v4.
Proof. cbn. repeat split; decide_keys. Qed.

Lemma read_expense_row d a c s :
  read_row (expense_row d a c s)
  = zip expenses_header [Text (strftime d); Number a; numericise c; numericise s].
Proof.
  unfold read_row, expense_row. cbn [length replicate app Nat.sub fmap list_fmap numericise_cell].
  rewrite numericise_strftime. reflexivity.
Qed.

Lemma convert_written_row d a c s :
  valid_date d = true -> in_Timestamp_bounds d = true ->
  convert_record (read_row (expense_row d a c s)) = Some (entry_expense (d, a, c, s)).
Proof.
  intros Hv Hb. rewrite read_expense_row. unfold convert_record.
  destruct (record_get_expenses (Text (strftime d)) (Number a) (numericise c) (numericise s))
    as (-> & -> & -> & ->).
  cbn [mbind option_bind cell_to_datetime cell_to_numeric].
  rewrite to_datetime_strftime by assumption. reflexivity.
Qed.

Lemma convert_entry x :
  entry_ok x -> convert_record (read_row (entry_row x)) = Some (entry_expense x).
Proof.
  destruct x as [[[d a] c] s]. intros [Hv Hb].
  apply convert_written_row; assumption.
Qed.

Lemma expenses_header_NoDup : NoDup expenses_header.
Proof.
  apply NoDup_ListNoDup. unfold expenses_header.
  repeat (constructor; [cbn; intuition discriminate|]). constructor.
Qed.

Lemma get_all_records_sheet_of entries :
  get_all_records (sheet_of entries) = Some (read_row <$> (entry_row <$> entries)).
Proof.
  unfold get_all_records, sheet_of.
  rewrite bool_decide_eq_true_2 by apply expenses_header_NoDup. reflexivity.
Qed.

Lemma mapM_convert_entries entries :
  Forall entry_ok entries ->
  mapM convert_record (read_row <$> (entry_row <$> entries))
  = Some (entry_expense <$> entries).
Proof.
  intros Hok. apply mapM_Some_2.
  induction Hok as [|x l Hx _ IH]; cbn [fmap list_fmap]; constructor.
  - apply convert_entry, Hx.
  - apply IH.
Qed.

Lemma load_expenses_eq ws :
  load_expenses ws =
  match get_all_records ws ≫= mapM convert_record with
  | Some df => imap (fun i (mk : nat -> Expense) => mk (2 + i)) df
  | None => []
  end.
Proof. unfold load_expenses. destruct (get_all_records ws) as [[|r data]|]; reflexivity. Qed.

Lemma load_expenses_sheet_of entries :
  Forall entry_ok entries ->
  load_expenses (sheet_of entries) = frame_of entries.
Proof.
  intros Hok.
  rewrite load_expenses_eq, get_all_records_sheet_of. cbn [mbind option_bind].
  rewrite mapM_convert_entries by assumption.
  unfold frame_of, frame_from. rewrite imap_fmap. reflexivity.
Qed.

Lemma ledger_sheet_of ws :
  ledger ws <-> exists entries, ws = sheet_of entries /\ Forall entry_ok entries.
Proof.
  split.
  - intros (rows & -> & Hrows).
    induction Hrows as [|r rows (d & a & c & s & -> & Hv & Hb) _ (entries & Heq & Hok)].
    + exists []. split; [reflexivity | constructor].
    + exists ((d, a, c, s) :: entries). split.
      * unfold sheet_of in *. injection Heq as ->. reflexivity.
      * constructor; [split; assumption | assumption].
  - intros (entries & -> & Hok). exists (entry_row <$> entries). split; [reflexivity|].
    induction Hok as [|[[[d a] c] s] l [Hv Hb] _ IH]; cbn [fmap list_fmap]; constructor.
    + exists d, a, c, s. auto.
    + apply IH.
Qed.

Lemma text_ledger_sheet_of ws :
  text_ledger ws ->
  exists entries,
    ws = sheet_of entries /\ Forall entry_ok entries /\ Forall entry_text entries.
Proof.
  intros (rows & -> & Hrows).
  induction Hrows
    as [|r rows (d & a & c & s & -> & Hv & Hb & Hc & Hs) _ (entries & Heq & Hok & Htext)].
  - exists []. split; [reflexivity|]. split; constructor.
  - exists ((d, a, c, s) :: entries). split; [|split].
    + unfold sheet_of in *. injection Heq as ->. reflexivity.
    + constructor; [split; assumption | assumption].
    + constructor; [split; assumption | assumption].
Qed.

Lemma expense_row_entry_expense x n :
  entry_text x ->
  expense_row (date (entry_expense x n)) (amount (entry_expense x n))
    (category (entry_expense x n)) (description (entry_expense x n))
  = entry_row x.
Proof.
  destruct x as [[[d a] c] s]. intros [Hc Hs].
  rewrite entry_expense_text by assumption. reflexivity.
Qed.

Lemma length_frame_of entries : length (frame_of entries) = length entries.
Proof. apply length_imap. Qed.

Lemma lookup_frame_of entries i :
  frame_of entries !! i = (fun x => entry_expense x (2 + i)) <$> entries !! i.
Proof. unfold frame_of, frame_from. apply list_lookup_imap. Qed.

Lemma row_num_entry_expense x n : row_num (entry_expense x n) = n.
Proof. destruct x as [[[d a] c] s]. reflexivity. Qed.

Lemma elem_of_frame_of entries e :
  e ∈ frame_of entries ->
  exists i x, entries !! i = Some x /\ e = entry_expense x (2 + i) /\ row_num e = 2 + i.
Proof.
  intros [i Hi]%list_elem_of_lookup. rewrite lookup_frame_of in Hi.
  destruct (entries !! i) as [x|] eqn:Hx; [|discriminate].
  injection Hi as <-. exists i, x. rewrite row_num_entry_expense. auto.
Qed.

(** ** Positions of a loaded frame *)

Lemma frame_from_cons k x l :
  frame_from k (x :: l) = entry_expense x k :: frame_from (S k) l.
Proof.
  unfold frame_from. rewrite imap_cons, Nat.add_0_r. f_equal.
  apply imap_ext. intros i y _. cbn. f_equal. lia.
Qed.

Lemma frame_from_app k l1 l2 :
  frame_from k (l1 ++ l2) = frame_from k l1 ++ frame_from (k + length l1) l2.
Proof.
  unfold frame_from. rewrite imap_app. f_equal.
  apply imap_ext. intros i y _. cbn. f_equal. lia.
Qed.

Lemma frame_from_row_nums k l :
  Forall (fun e => k <= row_num e < k + length l) (frame_from k l).
Proof.
  revert k. induction l as [|x l IH]; intros k; [constructor|].
  rewrite frame_from_cons. constructor.
  - rewrite row_num_entry_expense. cbn. lia.
  - eapply Forall_impl; [apply IH|]. cbn. intros e He. lia.
Qed.

Lemma max_row_num_frame_from k l :
  l <> [] -> max_row_num (frame_from k l) = k + length l - 1.
Proof.
  revert k. induction l as [|x l IH]; intros k Hne; [congruence|].
  rewrite frame_from_cons. cbn [max_row_num foldr length].
  rewrite row_num_entry_expense.
  destruct l as [|y l'].
  - cbn. lia.
  - fold (max_row_num (frame_from (S k) (y :: l'))).
    rewrite IH by discriminate. cbn [length]. lia.
Qed.

Lemma next_row_num_frame_of entries :
  next_row_num (frame_of entries) = 2 + length entries.
Proof.
  destruct entries as [|x l]; [reflexivity|].
  unfold next_row_num, frame_of.
  rewrite frame_from_cons. rewrite <- frame_from_cons.
  rewrite max_row_num_frame_from by discriminate. cbn [length]. lia.
Qed.

(** ** The three mutations, on the entries of a ledger *)

Lemma append_sheet_of entries x :
  sheet_of entries ++ [entry_row x] = sheet_of (entries ++ [x]).
Proof. unfold sheet_of. rewrite fmap_app. reflexivity. Qed.

Lemma add_expense_sheet_of entries d a c s :
  add_expense (sheet_of entries) d a c s = (true, sheet_of (entries ++ [(d, a, c, s)])).
Proof.
  unfold add_expense, append_row, attempt.
  rewrite <- append_sheet_of. reflexivity.
Qed.

Lemma frame_of_snoc entries x :
  frame_of (entries ++ [x])
  = frame_of entries ++ [entry_expense x (next_row_num (frame_of entries))].
Proof.
  rewrite next_row_num_frame_of. unfold frame_of.
  rewrite frame_from_app, frame_from_cons. reflexivity.
Qed.

Lemma add_expense_ledger ws d a c s :
  ledger ws -> valid_date d = true -> in_Timestamp_bounds d = true ->
  exists ws',
    add_expense ws d a c s = (true, ws') /\ ledger ws' /\
    load_expenses ws'
    = load_expenses ws ++ [entry_expense (d, a, c, s) (next_row_num (load_expenses ws))].
Proof.
  intros (entries & -> & Hok)%ledger_sheet_of Hv Hb.
  assert (Forall entry_ok (entries ++ [(d, a, c, s)])) as Hok'.
  { apply Forall_app. split; [assumption|]. constructor; [split; assumption | constructor]. }
  exists (sheet_of (entries ++ [(d, a, c, s)])). split; [apply add_expense_sheet_of|].
  split; [apply ledger_sheet_of; eauto|].
  rewrite !load_expenses_sheet_of by assumption.
  apply (frame_of_snoc entries (d, a, c, s)).
Qed.

Lemma filter_Forall_id {A} (P : A -> Prop) `{!forall x, Decision (P x)} (l : list A) :
  Forall P l -> filter P l = l.
Proof.
  induction 1 as [|x l Hx _ IH]; [reflexivity|].
  rewrite filter_cons_True by assumption. f_equal. apply IH.
Qed.

Lemma shift_up_below p k l :
  k + length l <= p -> shift_up p <$> frame_from k l = frame_from k l.
Proof.
  revert k. induction l as [|x l IH]; intros k Hk; [reflexivity|].
  cbn [length] in Hk. rewrite frame_from_cons. cbn [fmap list_fmap].
  fold (shift_up p <$> frame_from (S k) l). rewrite IH by lia. f_equal.
  unfold shift_up. rewrite row_num_entry_expense.
  replace (p <? k) with false by (symmetry; apply Nat.ltb_ge; lia). reflexivity.
Qed.

Lemma shift_up_above p k l :
  p < k -> shift_up p <$> frame_from k l = frame_from (k - 1) l.
Proof.
  revert k. induction l as [|x l IH]; intros k Hk; [reflexivity|].
  rewrite !frame_from_cons. cbn [fmap list_fmap].
  fold (shift_up p <$> frame_from (S k) l). rewrite IH by lia.
  replace (S k - 1) with (S (k - 1)) by lia. f_equal.
  unfold shift_up. rewrite row_num_entry_expense.
  replace (p <? k) with true by (symmetry; apply Nat.ltb_lt; lia).
  destruct x as [[[d a] c] s]. reflexivity.
Qed.

Lemma frame_of_delete l1 x l2 :
  frame_of (l1 ++ l2)
  = shift_up (2 + length l1) <$>
    filter (fun e => row_num e <> 2 + length l1) (frame_of (l1 ++ x :: l2)).
Proof.
  unfold frame_of. rewrite !frame_from_app, frame_from_cons.
  rewrite filter_app, filter_cons_False
    by (rewrite row_num_entry_expense; intros Hne; apply Hne; reflexivity).
  rewrite !filter_Forall_id.
  - rewrite fmap_app, shift_up_below, shift_up_above by lia.
    replace (S (2 + length l1) - 1) with (2 + length l1) by lia. reflexivity.
  - eapply Forall_impl; [apply frame_from_row_nums|]. cbn. intros e He. lia.
  - eapply Forall_impl; [apply frame_from_row_nums|]. cbn. intros e He. lia.
Qed.

Lemma delete_rows_sheet_of entries i :
  delete_rows (sheet_of entries) (2 + i) = Some (sheet_of (delete i entries)).
Proof.
  unfold delete_rows, sheet_of. cbn [plus]. rewrite list_fmap_delete. reflexivity.
Qed.

Lemma delete_expense_ledger ws e :
  ledger ws -> e ∈ load_expenses ws ->
  exists ws',
    delete_expense ws (row_num e) = (true, ws') /\ ledger ws' /\
    length (load_expenses ws') + 1 = length (load_expenses ws) /\
    load_expenses ws'
    = shift_up (row_num e) <$>
      filter (fun x => row_num x <> row_num e) (load_expenses ws).
Proof.
  intros (entries & -> & Hok)%ledger_sheet_of He.
  rewrite load_expenses_sheet_of in He by assumption.
  apply elem_of_frame_of in He as (i & x & Hx & _ & ->).
  apply list_elem_of_split_length in Hx as (l1 & l2 & -> & ->).
  assert (Forall entry_ok (l1 ++ l2)) as Hok'.
  { apply Forall_app in Hok as [H1 H2].
    apply Forall_app. split; [assumption|]. inversion H2; assumption. }
  exists (sheet_of (l1 ++ l2)). split.
  - unfold delete_expense. rewrite delete_rows_sheet_of, delete_middle. reflexivity.
  - split; [apply ledger_sheet_of; eauto|].
    rewrite !load_expenses_sheet_of by assumption.
    split.
    + rewrite !length_frame_of, !length_app. cbn [length]. lia.
    + apply frame_of_delete.
Qed.

Lemma frame_of_insert entries i y :
  i < length entries ->
  frame_of (<[i := y]> entries)
  = (fun x => if row_num x =? 2 + i then entry_expense y (2 + i) else x) <$> frame_of entries.
Proof.
  intros Hi. apply list_eq. intros j.
  rewrite list_lookup_fmap, !lookup_frame_of.
  destruct (decide (i = j)) as [<- | Hne].
  - rewrite list_lookup_insert_eq by assumption.
    destruct (lookup_lt_is_Some_2 entries i Hi) as [x ->]. cbn.
    rewrite row_num_entry_expense, Nat.eqb_refl. reflexivity.
  - rewrite list_lookup_insert_ne by assumption.
    destruct (entries !! j) as [x|]; [|reflexivity]. cbn.
    rewrite row_num_entry_expense.
    replace (S (S j) =? S (S i)) with false by (symmetry; apply Nat.eqb_neq; lia).
    reflexivity.
Qed.

Lemma overwrite_entry_row x y : overwrite (entry_row y) (entry_row x) = entry_row y.
Proof. destruct x as [[[d a] c] s], y as [[[d' a'] c'] s']. reflexivity. Qed.

Lemma update_sheet_of entries i x y :
  entries !! i = Some x ->
  update (sheet_of entries) (2 + i) (entry_row y) = Some (sheet_of (<[i := y]> entries)).
Proof.
  intros Hx. pose proof (lookup_lt_Some _ _ _ Hx) as Hi.
  unfold update. cbn [plus].
  assert (length (sheet_of entries) = S (length entries)) as Hlen
    by (unfold sheet_of; cbn [length]; rewrite length_fmap; reflexivity).
  replace (S (S i) - length (sheet_of entries)) with 0 by lia.
  cbn [replicate]. rewrite app_nil_r.
  assert (sheet_of entries !! S i = Some (entry_row x)) as ->
    by (change (sheet_of entries !! S i) with ((entry_row <$> entries) !! i);
        rewrite list_lookup_fmap, Hx; reflexivity).
  change (default [] (Some (entry_row x))) with (entry_row x).
  rewrite overwrite_entry_row.
  unfold sheet_of. rewrite list_fmap_insert. reflexivity.
Qed.

Lemma update_expense_ledger ws e d a c s :
  ledger ws -> e ∈ load_expenses ws ->
  valid_date d = true -> in_Timestamp_bounds d = true ->
  exists ws',
    update_expense ws (row_num e) d a c s = (true, ws') /\ ledger ws' /\
    load_expenses ws'
    = (fun x => if row_num x =? row_num e
                then entry_expense (d, a, c, s) (row_num e) else x)
      <$> load_expenses ws.
Proof.
  intros (entries & -> & Hok)%ledger_sheet_of He Hv Hb.
  rewrite load_expenses_sheet_of in He by assumption.
  apply elem_of_frame_of in He as (i & x & Hx & _ & ->).
  pose proof (lookup_lt_Some _ _ _ Hx) as Hi.
  assert (Forall entry_ok (<[i := (d, a, c, s)]> entries)) as Hok'.
  { apply Forall_insert; [assumption | split; assumption]. }
  exists (sheet_of (<[i := (d, a, c, s)]> entries)). split.
  - unfold update_expense.
    change (expense_row d a c s) with (entry_row (d, a, c, s)).
    rewrite (update_sheet_of entries i x (d, a, c, s) Hx). reflexivity.
  - split; [apply ledger_sheet_of; eauto|].
    rewrite !load_expenses_sheet_of by assumption.
    apply (frame_of_insert entries i (d, a, c, s) Hi).
Qed.

(** ** The ledger invariant

    A worksheet created by [get_expenses_worksheet] is a ledger, and so is
    a cleared one; [add_expense], [delete_expense] and [update_expense]
    keep a ledger a ledger (see the three lemmas above). *)

Lemma new_worksheet_is_ledger : ledger (get_expenses_worksheet None).
Proof. exists []. split; [reflexivity | constructor]. Qed.

Lemma clear_all_expenses_ledger ws :
  exists ws',
    clear_all_expenses ws = (true, ws') /\ ledger ws' /\ load_expenses ws' = [].
Proof.
  exists [expenses_header]. split; [reflexivity|]. split; [|reflexivity].
  exists []. split; [reflexivity | constructor].
Qed.

(** ** Create, delete and update followed by a reload *)

Ltac sample_is_ledger :=
  eexists; split;
  [ reflexivity
  | repeat (constructor; [do 4 eexists; repeat split; reflexivity |]); constructor ].

Lemma load_sample_ledger : load_expenses sample_ledger = sample_frame.
Proof. reflexivity. Qed.

(** C1, where the script departs from it.  [add_expense] appends the row
    with the description "007" as that text, and the call succeeds; but the
    record that [load_expenses] then lists does not carry that description:
    [get_all_records] has turned the cell into the number 7.  So the frame
    is not the previous one followed by a record with the fields that were
    passed.  A category that reads as a number is lost the same way. *)
Theorem create_then_list_numeric_text :
  let ws := [expenses_header] in
  let ws' := snd (add_expense ws (mkdate 2024 1 1) 10 "Food" "007") in
  ledger ws /\
  add_expense ws (mkdate 2024 1 1) 10 "Food" "007" = (true, ws') /\
  last ws' = Some [Text "2024-01-01"; Number 10; Text "Food"; Text "007"] /\
  get_all_records ws'
  = Some [[(Text "Date", Text "2024-01-01"); (Text "Amount", Number 10);
           (Text "Category", Text "Food"); (Text "Description", Number 7)]] /\
  load_expenses ws'
  <> load_expenses ws ++
     [mkExpense (mkdate 2024 1 1) 10 "Food" "007" (next_row_num (load_expenses ws))].
Proof.
  cbv zeta. split; [exists []; split; [reflexivity | constructor]|].
  split; [reflexivity|]. split; [reflexivity|]. split; [vm_compute; reflexivity|].
  vm_compute. discriminate.
Qed.

(** [add_expense] followed by [load_expenses], for a category and a
    description that are sure to read back as texts: the frame is the
    previous one followed by exactly one more record, which carries the
    date, amount, category and description passed to [add_expense]; its
    position is the largest previous position plus one, or 2 when the
    ledger had no record ([next_row_num]).  The date is one the date input
    can supply, within the range of a timestamp. *)
Theorem create_then_list_text ws d a c s :
  ledger ws -> valid_date d = true -> in_Timestamp_bounds d = true ->
  stays_text c = true -> stays_text s = true ->
  exists ws',
    add_expense ws d a c s = (true, ws') /\
    load_expenses ws'
    = load_expenses ws ++ [mkExpense d a c s (next_row_num (load_expenses ws))].
Proof.
  intros Hl Hv Hb Hc Hs.
  destruct (add_expense_ledger ws d a c s Hl Hv Hb) as (ws' & Hadd & _ & Hload).
  exists ws'. split; [assumption|].
  rewrite Hload, entry_expense_text by assumption. reflexivity.
Qed.

Lemma create_then_list_text_witness :
  exists ws',
    add_expense sample_ledger (mkdate 2024 1 4) (1 # 100) "Travel" "" = (true, ws') /\
    load_expenses ws'
    = load_expenses sample_ledger ++
      [mkExpense (mkdate 2024 1 4) (1 # 100) "Travel" ""
         (next_row_num (load_expenses sample_ledger))].
Proof.
  apply (create_then_list_text sample_ledger (mkdate 2024 1 4) (1 # 100) "Travel" "").
  - sample_is_ledger.
  - reflexivity.
  - reflexivity.
  - reflexivity.
  - reflexivity.
Defined.

Example create_on_empty_ledger :
  load_expenses (snd (add_expense [expenses_header] (mkdate 2024 1 1) 10 "Food" "lunch"))
  = [mkExpense (mkdate 2024 1 1) 10 "Food" "lunch" 2].
Proof. reflexivity. Qed.

(** C4.  On a ledger worksheet, [delete_expense] at the position of a
    record followed by [load_expenses] yields a frame with exactly one
    record fewer: the record at that position is gone, every record that
    had a greater position has it decreased by exactly 1, and the records
    with smaller positions are unchanged; fields other than the position
    are untouched. *)
Theorem delete_then_list ws e :
  ledger ws -> e ∈ load_expenses ws ->
  exists ws',
    delete_expense ws (row_num e) = (true, ws') /\
    length (load_expenses ws') + 1 = length (load_expenses ws) /\
    load_expenses ws'
    = shift_up (row_num e) <$>
      filter (fun x => row_num x <> row_num e) (load_expenses ws).
Proof.
  intros Hl He.
  destruct (delete_expense_ledger ws e Hl He) as (ws' & Hdel & _ & Hlen & Hload).
  exists ws'. repeat split; assumption.
Qed.

Lemma delete_then_list_witness :
  exists ws',
    delete_expense sample_ledger 3 = (true, ws') /\
    length (load_expenses ws') + 1 = length (load_expenses sample_ledger) /\
    load_expenses ws'
    = shift_up 3 <$> filter (fun x => row_num x <> 3) (load_expenses sample_ledger).
Proof.
  apply (delete_then_list sample_ledger
           (mkExpense (mkdate 2024 1 2) 20 "Transport" "bus" 3)).
  - sample_is_ledger.
  - apply (list_elem_of_lookup_2 _ 1). reflexivity.
Defined.

Example delete_middle_of_sample :
  load_expenses (snd (delete_expense sample_ledger 3))
  = [ mkExpense (mkdate 2024 1 1) 10 "Food" "lunch" 2;
      mkExpense (mkdate 2024 1 3) 5 "Food" "snack" 3 ].
Proof. reflexivity. Qed.

(** C5, where the script departs from it.  [update_expense] writes the
    new description "123" into row 3 as that text, and the call succeeds;
    but the record that [load_expenses] then lists at position 3 does not
    carry that description: [get_all_records] has turned the cell into the
    number 123.  This is the defect shown for C1. *)
Theorem update_then_list_numeric_text :
  let ws' := snd (update_expense sample_ledger 3 (mkdate 2024 1 2) 20 "Transport" "123") in
  ledger sample_ledger /\
  update_expense sample_ledger 3 (mkdate 2024 1 2) 20 "Transport" "123" = (true, ws') /\
  ws' !! 2 = Some [Text "2024-01-02"; Number 20; Text "Transport"; Text "123"] /\
  (get_all_records ws' ≫= fun data => data !! 1)
  = Some [(Text "Date", Text "2024-01-02"); (Text "Amount", Number 20);
          (Text "Category", Text "Transport"); (Text "Description", Number 123)] /\
  load_expenses ws'
  <> (fun x => if row_num x =? 3
               then mkExpense (mkdate 2024 1 2) 20 "Transport" "123" 3 else x)
     <$> load_expenses sample_ledger.
Proof.
  cbv zeta. split; [sample_is_ledger|].
  split; [reflexivity|]. split; [reflexivity|]. split; [vm_compute; reflexivity|].
  vm_compute. discriminate.
Qed.

(** [update_expense] at the position of a record followed by
    [load_expenses], for a category and a description that are sure to
    read back as texts: the frame is the same except that the record at
    that position carries the new date, amount, category and description;
    the records at all other positions are unchanged. *)
Theorem update_then_list_text ws e d a c s :
  ledger ws -> e ∈ load_expenses ws ->
  valid_date d = true -> in_Timestamp_bounds d = true ->
  stays_text c = true -> stays_text s = true ->
  exists ws',
    update_expense ws (row_num e) d a c s = (true, ws') /\
    load_expenses ws'
    = (fun x => if row_num x =? row_num e then mkExpense d a c s (row_num e) else x)
      <$> load_expenses ws.
Proof.
  intros Hl He Hv Hb Hc Hs.
  destruct (update_expense_ledger ws e d a c s Hl He Hv Hb) as (ws' & Hupd & _ & Hload).
  exists ws'. split; [assumption|].
  rewrite Hload, entry_expense_text by assumption. reflexivity.
Qed.

Lemma update_then_list_text_witness :
  exists ws',
    update_expense sample_ledger 3 (mkdate 2024 2 29) (5 # 2) "Travel" "tram" = (true, ws') /\
    load_expenses ws'
    = (fun x => if row_num x =? 3
                then mkExpense (mkdate 2024 2 29) (5 # 2) "Travel" "tram" 3 else x)
      <$> load_expenses sample_ledger.
Proof.
  apply (update_then_list_text sample_ledger
           (mkExpense (mkdate 2024 1 2) 20 "Transport" "bus" 3)
           (mkdate 2024 2 29) (5 # 2) "Travel" "tram").
  - sample_is_ledger.
  - apply (list_elem_of_lookup_2 _ 1). reflexivity.
  - reflexivity.
  - reflexivity.
  - reflexivity.
  - reflexivity.
Defined.

Example update_middle_of_sample :
  load_expenses (snd (update_expense sample_ledger 3 (mkdate 2024 2 29) (5 # 2) "Travel" "tram"))
  = [ mkExpense (mkdate 2024 1 1) 10 "Food" "lunch" 2;
      mkExpense (mkdate 2024 2 29) (5 # 2) "Travel" "tram" 3;
      mkExpense (mkdate 2024 1 3) 5 "Food" "snack" 4 ].
Proof. reflexivity. Qed.

(** ** The date of an expense, written and read back

    [add_expense] writes the date as a ten-character [YYYY-MM-DD] text;
    [get_all_records] leaves that text a text, and the conversion of
    [load_expenses] reads it back as the same date, so the record loaded
    last after the call has the date that was passed to [add_expense]. *)
Theorem add_then_load_date ws d a c s :
  ledger ws -> valid_date d = true -> in_Timestamp_bounds d = true ->
  iso_shape (strftime d) = true /\
  numericise (strftime d) = Text (strftime d) /\
  cell_to_datetime (Text (strftime d)) = Some d /\
  exists ws' r e,
    add_expense ws d a c s = (true, ws') /\
    last ws' = Some r /\ head r = Some (Text (strftime d)) /\
    last (load_expenses ws') = Some e /\ date e = d.
Proof.
  intros Hl Hv Hb.
  split; [apply iso_shape_strftime|].
  split; [apply numericise_strftime|].
  split; [apply to_datetime_strftime; assumption|].
  destruct (add_expense_ledger ws d a c s Hl Hv Hb) as (ws' & Hadd & _ & Hload).
  exists ws', (expense_row d a c s), (entry_expense (d, a, c, s) (next_row_num (load_expenses ws))).
  split; [assumption|]. split; [|split; [reflexivity|]].
  - unfold add_expense, append_row, attempt in Hadd. injection Hadd as <-.
    apply last_snoc.
  - rewrite Hload, last_snoc. auto.
Qed.

Lemma add_then_load_date_witness :
  iso_shape (strftime (mkdate 2024 12 31)) = true /\
  numericise (strftime (mkdate 2024 12 31)) = Text (strftime (mkdate 2024 12 31)) /\
  cell_to_datetime (Text (strftime (mkdate 2024 12 31))) = Some (mkdate 2024 12 31) /\
  exists ws' r e,
    add_expense sample_ledger (mkdate 2024 12 31) (1999 # 100) "Shopping" "gift" = (true, ws') /\
    last ws' = Some r /\ head r = Some (Text (strftime (mkdate 2024 12 31))) /\
    last (load_expenses ws') = Some e /\ date e = mkdate 2024 12 31.
Proof.
  apply (add_then_load_date sample_ledger (mkdate 2024 12 31) (1999 # 100)
           "Shopping" "gift").
  - sample_is_ledger.
  - reflexivity.
  - reflexivity.
Defined.

Example strftime_example : strftime (mkdate 2024 1 3) = "2024-01-03".
Proof. reflexivity. Qed.

Example to_datetime_leap_day : to_datetime "2024-02-29" = Some (mkdate 2024 2 29).
Proof. reflexivity. Qed.

Example to_datetime_no_such_day : to_datetime "2023-02-29" = None.
Proof. reflexivity. Qed.

Example to_datetime_out_of_bounds : to_datetime (strftime (mkdate 2300 1 1)) = None.
Proof. reflexivity. Qed.

Example numericise_examples :
  numericise "007" = Number 7 /\ numericise "12.50" = Number (25 # 2) /\
  numericise " -3 " = Number (-3) /\ numericise "1e3" = Number 1000 /\
  numericise "nan" = Special NotANumber /\ numericise "1_000" = Text "1_000" /\
  numericise "Tea" = Text "Tea" /\ numericise "" = Text "".
Proof. vm_compute. repeat split. Qed.

(** ** The category registry *)

Lemma record_get_category r :
  record_get "Category"
    (zip categories_header
       (numericise_cell <$> r ++ replicate (length categories_header - length r) blank))
  = Some (numericise_cell (first_cell r)).
Proof.
  destruct r as [|c r]; [reflexivity|].
  cbn [categories_header length Nat.sub replicate app fmap list_fmap zip zip_with
       record_get first_cell head default].
  decide_keys. reflexivity.
Qed.

Lemma load_categories_eq ws :
  load_categories ws
  = default [] (get_all_records ws ≫= mapM (record_get "Category")).
Proof. unfold load_categories. destruct (get_all_records ws) as [[|r data]|]; reflexivity. Qed.

Lemma load_categories_registry rows :
  load_categories (categories_header :: rows)
  = (fun r => numericise_cell (first_cell r)) <$> rows.
Proof.
  rewrite load_categories_eq. unfold get_all_records.
  rewrite bool_decide_eq_true_2 by (apply NoDup_singleton).
  cbn [mbind option_bind].
  assert (mapM (record_get "Category")
            ((fun r : row =>
                zip categories_header
                  (numericise_cell <$>
                     r ++ replicate (length categories_header - length r) blank)) <$> rows)
          = Some ((fun r => numericise_cell (first_cell r)) <$> rows)) as ->; [|reflexivity].
  apply mapM_Some_2. induction rows as [|r rows IH]; cbn [fmap list_fmap]; constructor.
  - apply record_get_category.
  - apply IH.
Qed.

Lemma load_categories_registry_of labels :
  load_categories (registry_of labels) = numericise <$> labels.
Proof.
  unfold registry_of. rewrite load_categories_registry, <- list_fmap_compose.
  reflexivity.
Qed.

Lemma add_category_registry rows label :
  add_category (categories_header :: rows) label
  = (true, categories_header :: (rows ++ [[Text label]])).
Proof. reflexivity. Qed.

Lemma add_category_registry_of labels label :
  add_category (registry_of labels) label = (true, registry_of (labels ++ [label])).
Proof. unfold registry_of. rewrite fmap_app. reflexivity. Qed.

(** [numericise] returns a text only when it returns the text it was
    given. *)
Lemma python_float_not_Text ts t : python_float ts <> Some (Text t).
Proof.
  unfold python_float, float_of_decimal.
  repeat (case_match; try discriminate).
Qed.

Lemma numericise_Text value t : numericise value = Text t -> t = value.
Proof.
  unfold numericise.
  destruct (existsb is_other _); [congruence|].
  destruct (python_int _); [discriminate|].
  destruct (python_float _) as [c|] eqn:Hf; [|congruence].
  intros ->. exfalso. exact (python_float_not_Text _ _ Hf).
Qed.

Lemma elem_of_numericise_text (label : string) (labels : list string) :
  stays_text label = true ->
  Text label ∈ numericise <$> labels <-> label ∈ labels.
Proof.
  intros Hl. rewrite list_elem_of_fmap. split.
  - intros (l & Heq & Hin). symmetry in Heq. apply numericise_Text in Heq. congruence.
  - intros Hin. exists label. split; [|exact Hin].
    symmetry. apply stays_text_numericise, Hl.
Qed.

(** C6, where the script departs from it.  The registry holds the label
    "2024" (row 2 of the worksheet), and [load_categories] returns it as
    the number 2024.  The test [new_category in categories] compares the
    submitted text "2024" with that number and fails, so the form does not
    take the "already exists" branch: the label is appended a second time
    and the registry grows.  This is the defect shown for C1, in the other
    worksheet. *)
Theorem add_category_numeric_label :
  let ws := registry_of ["2024"] in
  find ws "2024" = Some 2 /\
  load_categories ws = [Number 2024] /\
  (Text "2024" ∉ load_categories ws) /\
  add_category_form (load_categories ws) ws true "2024"
  = (CategoryAdded, registry_of ["2024"; "2024"]) /\
  load_categories (registry_of ["2024"; "2024"]) = [Number 2024; Number 2024].
Proof.
  cbv zeta.
  assert (load_categories (registry_of ["2024"]) = [Number 2024]) as Hload
    by (vm_compute; reflexivity).
  split; [reflexivity|]. split; [exact Hload|].
  assert (Text "2024" ∉ load_categories (registry_of ["2024"])) as Hnotin.
  { rewrite Hload. intros Hin. apply list_elem_of_singleton in Hin. discriminate. }
  split; [exact Hnotin|]. split; [|vm_compute; reflexivity].
  unfold add_category_form. cbn [andb negb String.eqb].
  rewrite bool_decide_eq_false_2 by exact Hnotin. reflexivity.
Qed.

(** The "Add New Category" form on a registry as the application writes
    it, with a non-empty label that is sure to read back as a text: when
    the label is in the registry (the same text, compared exactly), the
    form takes the "already exists" branch and the worksheet, hence the
    length of the registry, is unchanged; when it is not, the label is
    appended at the end of the registry. *)
Theorem add_category_text_label labels label :
  label <> "" -> stays_text label = true ->
  let ws := registry_of labels in
  (label ∈ labels ->
     add_category_form (load_categories ws) ws true label = (DuplicateCategory, ws)) /\
  (label ∉ labels ->
     add_category_form (load_categories ws) ws true label
     = (CategoryAdded, registry_of (labels ++ [label])) /\
     load_categories (registry_of (labels ++ [label]))
     = load_categories ws ++ [Text label]).
Proof.
  intros Hne Hl ws. subst ws. unfold add_category_form.
  assert (String.eqb label "" = false) as -> by (apply String.eqb_neq; assumption).
  cbn [andb negb]. rewrite load_categories_registry_of. split.
  - intros Hin.
    rewrite bool_decide_eq_true_2 by (apply elem_of_numericise_text; assumption).
    reflexivity.
  - intros Hnotin.
    rewrite bool_decide_eq_false_2
      by (rewrite elem_of_numericise_text by assumption; exact Hnotin).
    rewrite add_category_registry_of. split; [reflexivity|].
    rewrite load_categories_registry_of, fmap_app. cbn [fmap list_fmap].
    rewrite (stays_text_numericise label Hl). reflexivity.
Qed.

Lemma add_category_text_label_witness :
  let ws := registry_of ["Food"; "2024"] in
  ("Food" ∈ ["Food"; "2024"] ->
     add_category_form (load_categories ws) ws true "Food" = (DuplicateCategory, ws)) /\
  ("Food" ∉ ["Food"; "2024"] ->
     add_category_form (load_categories ws) ws true "Food"
     = (CategoryAdded, registry_of (["Food"; "2024"] ++ ["Food"])) /\
     load_categories (registry_of (["Food"; "2024"] ++ ["Food"]))
     = load_categories ws ++ [Text "Food"]).
Proof.
  apply (add_category_text_label ["Food"; "2024"] "Food").
  - discriminate.
  - reflexivity.
Defined.

Example add_existing_food :
  add_category_form (load_categories [categories_header; [Text "Food"]])
    [categories_header; [Text "Food"]] true "Food"
  = (DuplicateCategory, [categories_header; [Text "Food"]]).
Proof. reflexivity. Qed.

Example add_lower_case_food :
  load_categories
    (snd (add_category_form (load_categories [categories_header; [Text "Food"]])
            [categories_header; [Text "Food"]] true "food"))
  = [Text "Food"; Text "food"].
Proof. reflexivity. Qed.

Example seeded_registry :
  registry (get_categories_worksheet None) /\
  length (load_categories (get_categories_worksheet None)) = 10.
Proof. split; [eexists; reflexivity | reflexivity]. Qed.

(** ** Filters *)

Lemma mask_selected date_range cats min_amount e :
  date_leb (fst date_range) (date e) && date_leb (date e) (snd date_range) &&
  bool_decide (category e ∈ cats) && Qle_bool min_amount (amount e) = true
  <-> selected date_range cats min_amount e.
Proof.
  unfold selected.
  rewrite !andb_true_iff, !date_leb_le, bool_decide_eq_true, Qle_bool_iff. tauto.
Qed.

Lemma List_filter_decide {A} (f : A -> bool) (P : A -> Prop)
    `{!forall x, Decision (P x)} (l : list A) :
  (forall x, f x = true <-> P x) -> List.filter f l = filter P l.
Proof.
  intros Hf. induction l as [|x l IH]; [reflexivity|].
  cbn [List.filter]. rewrite filter_cons, IH.
  destruct (f x) eqn:Hfx, (decide (P x)) as [HP | HP]; try reflexivity.
  - exfalso. apply HP, Hf, Hfx.
  - apply Hf in HP. congruence.
Qed.

(** C8.  The filtered frame is the frame restricted, in order, to the
    records that satisfy all of: the date is not before the start of the
    range and not after its end, the category is one of the selected ones,
    and the amount is not below the minimum (which the input starts at 0).
    A record is in the filtered frame exactly when it is in the frame and
    satisfies the four conditions. *)
Theorem filtered_df_selects df start_date end_date selected_categories min_amount :
  filtered_df df (start_date, end_date) selected_categories min_amount
  = filter (selected (start_date, end_date) selected_categories min_amount) df /\
  (forall e,
     e ∈ filtered_df df (start_date, end_date) selected_categories min_amount <->
     e ∈ df /\
     date_le start_date (date e) /\ date_le (date e) end_date /\
     category e ∈ selected_categories /\ (min_amount <= amount e)%Q) /\
  default_min_amount = 0%Q.
Proof.
  assert (filtered_df df (start_date, end_date) selected_categories min_amount
          = filter (selected (start_date, end_date) selected_categories min_amount) df) as Heq.
  { unfold filtered_df. apply List_filter_decide. intros e. apply mask_selected. }
  split; [exact Heq|]. split; [|reflexivity].
  intros e. rewrite Heq, list_elem_of_filter. unfold selected. cbn [fst snd]. tauto.
Qed.

Example filter_food_of_sample :
  filtered_df sample_frame (mkdate 2024 1 1, mkdate 2024 1 3) ["Food"] default_min_amount
  = [ mkExpense (mkdate 2024 1 1) 10 "Food" "lunch" 2;
      mkExpense (mkdate 2024 1 3) 5 "Food" "snack" 4 ].
Proof. reflexivity. Qed.

Example filter_bounds_are_inclusive :
  filtered_df sample_frame (mkdate 2024 1 2, mkdate 2024 1 2) ["Food"; "Transport"] 20
  = [ mkExpense (mkdate 2024 1 2) 20 "Transport" "bus" 3 ].
Proof. reflexivity. Qed.

(** ** Distinct values *)

Lemma elem_of_List_filter {A} (f : A -> bool) (l : list A) x :
  x ∈ List.filter f l <-> x ∈ l /\ f x = true.
Proof. rewrite !list_elem_of_In. apply filter_In. Qed.

Lemma elem_of_unique {A} `{EqDecision A} (l : list A) x : x ∈ unique l <-> x ∈ l.
Proof.
  induction l as [|y l IH]; [reflexivity|].
  cbn [unique]. rewrite !elem_of_cons, elem_of_List_filter, IH.
  rewrite negb_true_iff, bool_decide_eq_false.
  destruct (decide (x = y)); tauto.
Qed.

Lemma NoDup_List_filter {A} (f : A -> bool) (l : list A) :
  NoDup l -> NoDup (List.filter f l).
Proof.
  induction 1 as [|x l Hx _ IH]; [constructor|].
  cbn [List.filter]. destruct (f x); [|assumption].
  constructor; [|assumption].
  rewrite elem_of_List_filter. tauto.
Qed.

Lemma NoDup_unique {A} `{EqDecision A} (l : list A) : NoDup (unique l).
Proof.
  induction l as [|y l IH]; [constructor|].
  cbn [unique]. constructor.
  - rewrite elem_of_List_filter, negb_true_iff, bool_decide_eq_false. tauto.
  - apply NoDup_List_filter, IH.
Qed.

(** ** Averages *)

Lemma true_divide_positive a n :
  1 <= n -> true_divide a (inject_Z (Z.of_nat n)) = Some (a / inject_Z (Z.of_nat n))%Q.
Proof.
  intros Hn. unfold true_divide.
  destruct (Qeq_bool (inject_Z (Z.of_nat n)) 0) eqn:Hz; [|reflexivity].
  apply Qeq_bool_eq in Hz. unfold Qeq, inject_Z in Hz. cbn in Hz. lia.
Qed.

(** C9.  The divisor of the "Daily Average" is the number of distinct dates
    of the filtered frame, or 1 when that number is 0; it is never zero, so
    the division never faults, also on a frame with no rows, and the
    statistic is the total amount divided by that divisor.  On a frame with
    at least one row the divisor is the number of distinct dates. *)
Theorem daily_average_divides_by_days fdf :
  1 <= daily_divisor fdf /\
  daily_divisor fdf = Nat.max (length (unique (date <$> fdf))) 1 /\
  daily_average fdf
  = Some (Series_sum (amount <$> fdf) / inject_Z (Z.of_nat (daily_divisor fdf)))%Q /\
  NoDup (unique (date <$> fdf)) /\
  (forall d, d ∈ unique (date <$> fdf) <-> exists e, e ∈ fdf /\ date e = d) /\
  match fdf with
  | [] => daily_divisor fdf = 1
  | _ => daily_divisor fdf = length (unique (date <$> fdf))
  end.
Proof.
  assert (1 <= daily_divisor fdf) as Hpos by (unfold daily_divisor; lia).
  split; [exact Hpos|]. split; [reflexivity|].
  split; [apply true_divide_positive, Hpos|].
  split; [apply NoDup_unique|]. split.
  - intros d. rewrite elem_of_unique, list_elem_of_fmap.
    split; intros (e & H1 & H2); exists e; auto.
  - destruct fdf as [|e fdf]; [reflexivity|].
    unfold daily_divisor. cbn [fmap list_fmap unique length]. lia.
Qed.

Example daily_average_of_sample : daily_average sample_frame = Some (35 # 3).
Proof. reflexivity. Qed.

Example daily_average_of_no_rows : daily_average [] = Some 0%Q.
Proof. reflexivity. Qed.

Example daily_average_same_day :
  daily_average [ mkExpense (mkdate 2024 1 1) 10 "Food" "lunch" 2;
                  mkExpense (mkdate 2024 1 1) 5 "Food" "snack" 3 ] = Some 15%Q.
Proof. reflexivity. Qed.

(** C2, as the script has it.  The "Average Transaction" metric is taken
    over the whole loaded frame, and only when the frame has a row: it is
    then the total amount divided by the number of rows.  For a frame with
    no row the page shows no metric at all, and the mean of an empty
    column is NaN, not 0; neither is a fault. *)
Theorem average_transaction_value df :
  average_transaction df
  = match df with
    | [] => None
    | _ => Some (Finite (Series_sum (amount <$> df) / inject_Z (Z.of_nat (length df))))
    end /\
  Series_mean (amount <$> df)
  = match df with
    | [] => NaN
    | _ => Finite (Series_sum (amount <$> df) / inject_Z (Z.of_nat (length df)))
    end.
Proof.
  destruct df as [|e df]; [split; reflexivity|].
  split.
  - unfold average_transaction, Series_mean. cbn [length Nat.eqb fmap list_fmap].
    rewrite length_fmap. reflexivity.
  - unfold Series_mean. cbn [fmap list_fmap length]. rewrite length_fmap. reflexivity.
Qed.

(** C2, as stated, fails on the empty set: no average of 0 is produced. *)
Lemma average_of_empty_is_not_zero :
  average_transaction [] = None /\
  Series_mean (amount <$> filtered_df [] (mkdate 2024 1 1, mkdate 2024 1 3) [] 0) = NaN /\
  Series_mean (amount <$> []) <> Finite 0.
Proof. split; [reflexivity|]. split; [reflexivity | discriminate]. Qed.

Example average_of_sample : average_transaction sample_frame = Some (Finite (35 # 3)).
Proof. reflexivity. Qed.

(** ** Groups of a frame

    Grouping by a column splits the rows of the frame: taken over the
    distinct values of the column, the groups hold every row exactly
    once. *)

Lemma groups_absent {K} `{EqDecision K} (key : Expense -> K) e df (keys : list K) :
  key e ∉ keys ->
  (fun k => amount <$> List.filter (fun x => bool_decide (key x = k)) (e :: df)) <$> keys
  = (fun k => amount <$> List.filter (fun x => bool_decide (key x = k)) df) <$> keys.
Proof.
  intros Habs. apply list_fmap_ext. intros i k Hk. cbn [List.filter].
  rewrite bool_decide_eq_false_2; [reflexivity|].
  intros Heq. apply Habs. rewrite Heq. apply (list_elem_of_lookup_2 _ i), Hk.
Qed.

Lemma groups_cons {K} `{EqDecision K} (key : Expense -> K) e df (keys : list K) :
  NoDup keys -> key e ∈ keys ->
  concat ((fun k => amount <$> List.filter (fun x => bool_decide (key x = k)) (e :: df))
            <$> keys)
  ≡ₚ amount e ::
     concat ((fun k => amount <$> List.filter (fun x => bool_decide (key x = k)) df)
               <$> keys).
Proof.
  induction 1 as [|k keys Hk Hnd IH]; intros Hin; [inversion Hin|].
  cbn [fmap list_fmap concat].
  destruct (decide (key e = k)) as [Heq | Hne].
  - fold ((fun k => amount <$> List.filter (fun x => bool_decide (key x = k)) (e :: df))
            <$> keys).
    rewrite groups_absent by (rewrite Heq; exact Hk).
    cbn [List.filter]. rewrite bool_decide_eq_true_2 by exact Heq. reflexivity.
  - apply elem_of_cons in Hin as [Heq | Hin]; [congruence|].
    fold ((fun k => amount <$> List.filter (fun x => bool_decide (key x = k)) (e :: df))
            <$> keys).
    rewrite (IH Hin). cbn [List.filter]. rewrite bool_decide_eq_false_2 by exact Hne.
    symmetry. apply Permutation_middle.
Qed.

Lemma groups_partition {K} `{EqDecision K} (key : Expense -> K) df (keys : list K) :
  NoDup keys -> (forall e, e ∈ df -> key e ∈ keys) ->
  concat ((fun k => amount <$> List.filter (fun x => bool_decide (key x = k)) df) <$> keys)
  ≡ₚ amount <$> df.
Proof.
  intros Hnd. induction df as [|e df IH]; intros Hcover.
  - cbn [List.filter fmap list_fmap]. clear.
    induction keys as [|k keys IH]; [reflexivity|]. cbn [fmap list_fmap concat app].
    exact IH.
  - rewrite groups_cons by (try assumption; apply Hcover, list_elem_of_here).
    cbn [fmap list_fmap]. constructor.
    apply IH. intros e' He'. apply Hcover, list_elem_of_further, He'.
Qed.

(** ** Sums per category *)

Lemma group_keys_NoDup (df : list Expense) :
  NoDup (merge_sort String.le (unique (category <$> df))).
Proof. rewrite merge_sort_Permutation. apply NoDup_unique. Qed.

Lemma group_keys_elem_of (df : list Expense) k :
  k ∈ merge_sort String.le (unique (category <$> df)) <-> k ∈ category <$> df.
Proof. rewrite merge_sort_Permutation. apply elem_of_unique. Qed.

Lemma groupby_category_keys sum df :
  fst <$> groupby_category sum df = merge_sort String.le (unique (category <$> df)).
Proof.
  unfold groupby_category. rewrite <- list_fmap_compose. apply list_fmap_id.
Qed.

Lemma groupby_category_values sum df :
  snd <$> groupby_category sum df
  = (fun k => sum (group_amounts df k)) <$> (fst <$> groupby_category sum df).
Proof.
  rewrite groupby_category_keys. unfold groupby_category.
  rewrite <- list_fmap_compose. reflexivity.
Qed.

Lemma elem_of_groupby_category sum df k v :
  (k, v) ∈ groupby_category sum df <->
  k ∈ category <$> df /\ v = sum (group_amounts df k).
Proof.
  unfold groupby_category. rewrite list_elem_of_fmap. split.
  - intros (k' & Heq & Hin). injection Heq as -> ->.
    split; [apply group_keys_elem_of, Hin | reflexivity].
  - intros [Hin ->]. exists k. split; [reflexivity | apply group_keys_elem_of, Hin].
Qed.


(** C3, as the script has it.  The per-category sums are taken over a
    partition of the filtered frame: the categories listed are the
    categories of the frame, each once and in ascending order; the value
    listed for a category is the sum of the amounts of its rows; and the
    amounts of the groups, taken together, are the amounts of the frame,
    each as often as it occurs.  So the category sums and the total add
    the same amounts.  This holds whatever way of adding [sum] is, and the
    descending sort only reorders the entries. *)
Theorem category_sums_partition (sum : list Q -> Q) fdf :
  NoDup (fst <$> groupby_category sum fdf) /\
  StronglySorted String.le (fst <$> groupby_category sum fdf) /\
  (forall k, k ∈ fst <$> groupby_category sum fdf <-> exists e, e ∈ fdf /\ category e = k) /\
  snd <$> groupby_category sum fdf
  = (fun k => sum (group_amounts fdf k)) <$> (fst <$> groupby_category sum fdf) /\
  concat (group_amounts fdf <$> (fst <$> groupby_category sum fdf)) ≡ₚ amount <$> fdf /\
  (forall out, sort_values_descending (groupby_category sum fdf) out ->
     concat (group_amounts fdf <$> (fst <$> out)) ≡ₚ amount <$> fdf).
Proof.
  assert (forall keys : list string,
            NoDup keys -> (forall e, e ∈ fdf -> category e ∈ keys) ->
            concat (group_amounts fdf <$> keys) ≡ₚ amount <$> fdf) as Hpart.
  { intros keys Hnd Hcover. exact (groups_partition category fdf keys Hnd Hcover). }
  assert (forall e, e ∈ fdf -> category e ∈ fst <$> groupby_category sum fdf) as Hcover.
  { intros e He. rewrite groupby_category_keys.
    apply group_keys_elem_of, list_elem_of_fmap. eauto. }
  assert (NoDup (fst <$> groupby_category sum fdf)) as Hnd
    by (rewrite groupby_category_keys; apply group_keys_NoDup).
  split; [exact Hnd|]. split; [|split; [|split; [|split]]].
  - rewrite groupby_category_keys. apply StronglySorted_merge_sort; apply _.
  - intros k. rewrite groupby_category_keys, group_keys_elem_of, list_elem_of_fmap.
    split; intros (e & H1 & H2); exists e; auto.
  - apply groupby_category_values.
  - apply Hpart; assumption.
  - intros out [Hperm _]. apply Hpart.
    + rewrite <- Hperm. exact Hnd.
    + intros e He. rewrite <- Hperm. apply Hcover, He.
Qed.

(** C3, as stated, fails in the arithmetic of the script.  The frame has
    the amounts 1.1 and 1.1 in category "A" and 4.35 in category "B".  The
    category sums are 2.2 and 4.35, which add up to 6.55, in floating
    point and exactly; the total of the column, added in the order of the
    rows, is (1.1 + 4.35) + 1.1 = 6.549999999999999. *)
Lemma category_sums_differ_from_total :
  groupby_category Series_sum_float float_frame
  = [("A", binary64 (22 # 10)); ("B", binary64 (435 # 100))] /\
  Series_sum_float (snd <$> groupby_category Series_sum_float float_frame)
  = binary64 (655 # 100) /\
  Series_sum_float (amount <$> float_frame)
  = (3687322194909593 # 562949953421312)%Q /\
  ~ (Series_sum_float (snd <$> groupby_category Series_sum_float float_frame)
     == Series_sum_float (amount <$> float_frame))%Q /\
  ~ (Series_sum (snd <$> groupby_category Series_sum_float float_frame)
     == Series_sum_float (amount <$> float_frame))%Q.
Proof.
  split; [vm_compute; reflexivity|]. split; [vm_compute; reflexivity|].
  split; [vm_compute; reflexivity|]. split; intros Heq; vm_compute in Heq; discriminate Heq.
Qed.

Example category_sums_of_sample :
  groupby_category_sum sample_frame = [("Food", 15%Q); ("Transport", 20%Q)] /\
  Series_sum (amount <$> sample_frame) = 35%Q.
Proof. split; reflexivity. Qed.

Example binary64_examples :
  binary64 (11 # 10) = (2476979795053773 # 2251799813685248)%Q /\
  binary64 (435 # 100) = (2448832297382707 # 562949953421312)%Q /\
  binary64 (25 # 2) = (25 # 2)%Q /\
  float_add (binary64 (1 # 10)) (binary64 (2 # 10))
  = (1351079888211149 # 4503599627370496)%Q.
Proof. vm_compute. repeat split. Qed.

(** ** The descending sort of the per-category sums *)

#[global] Instance before_transitive rank : Transitive (before rank).
Proof.
  intros x y z [Hxy | [Hxy Rxy]] [Hyz | [Hyz Ryz]]; unfold before.
  - left. eapply Qlt_trans; eassumption.
  - left. rewrite <- Hyz. exact Hxy.
  - left. rewrite Hxy. exact Hyz.
  - right. split; [rewrite Hxy; exact Hyz | lia].
Qed.

#[global] Instance before_total rank : Total (before rank).
Proof.
  intros x y. unfold before.
  destruct (Q_dec (snd x) (snd y)) as [[Hlt | Hgt] | Heq].
  - right. left. exact Hlt.
  - left. left. exact Hgt.
  - destruct (le_ge_dec (rank (fst x)) (rank (fst y))) as [Hr | Hr].
    + left. right. split; assumption.
    + right. right. split; [symmetry; exact Heq | exact Hr].
Qed.

Lemma before_value_ge rank x y : before rank x y -> value_ge x y.
Proof.
  unfold value_ge. intros [Hlt | [Heq _]].
  - apply Qlt_le_weak, Hlt.
  - rewrite Heq. apply Qle_refl.
Qed.

Lemma StronglySorted_weaken {A} (R S : A -> A -> Prop) (l : list A) :
  (forall x y, x ∈ l -> y ∈ l -> R x y -> S x y) ->
  StronglySorted R l -> StronglySorted S l.
Proof.
  intros HRS Hs. induction Hs as [|x l _ IH Hall]; constructor.
  - apply IH. intros y z Hy Hz. apply HRS; apply list_elem_of_further; assumption.
  - apply Forall_forall. intros y Hy. apply HRS.
    + apply list_elem_of_here.
    + apply list_elem_of_further, Hy.
    + exact (proj1 (Forall_forall _ _) Hall y Hy).
Qed.

Lemma category_spending_by_sorted sum rank fdf :
  StronglySorted (before rank) (category_spending_by sum rank fdf).
Proof. apply StronglySorted_merge_sort; apply _. Qed.

Lemma category_spending_by_contract sum rank fdf :
  sort_values_descending (groupby_category sum fdf) (category_spending_by sum rank fdf).
Proof.
  split.
  - symmetry. apply merge_sort_Permutation.
  - eapply StronglySorted_weaken; [|apply category_spending_by_sorted].
    intros x y _ _. apply before_value_ge.
Qed.

(** The sort always has a result. *)
Lemma category_spending_by_ok rank fdf :
  category_spending fdf (category_spending_by Series_sum rank fdf).
Proof. apply category_spending_by_contract. Qed.

(** Every result the sort may give is the one of some rank: the place of
    the labels in that result. *)
Lemma place_here keys k : place (k :: keys) k = 0.
Proof. cbn [place]. rewrite String.eqb_refl. reflexivity. Qed.

Lemma place_further keys k k' : k <> k' -> place (k' :: keys) k = S (place keys k).
Proof.
  intros Hne. cbn [place].
  destruct (String.eqb k k') eqn:Heq; [|reflexivity].
  apply String.eqb_eq in Heq. contradiction.
Qed.

Lemma place_inj keys k1 k2 :
  k1 ∈ keys -> k2 ∈ keys -> place keys k1 = place keys k2 -> k1 = k2.
Proof.
  induction keys as [|k keys IH]; intros H1 H2 Heq; [inversion H1|].
  destruct (decide (k1 = k)) as [-> | Hne1], (decide (k2 = k)) as [-> | Hne2].
  - reflexivity.
  - rewrite place_here, place_further in Heq by assumption. discriminate.
  - rewrite place_here, place_further in Heq by assumption. discriminate.
  - rewrite !place_further in Heq by assumption. injection Heq as Heq.
    apply elem_of_cons in H1 as [? | H1]; [contradiction|].
    apply elem_of_cons in H2 as [? | H2]; [contradiction|].
    exact (IH H1 H2 Heq).
Qed.

Lemma sorted_by_place (l : list (string * Q)) :
  NoDup (fst <$> l) -> StronglySorted value_ge l ->
  StronglySorted (before (place (fst <$> l))) l.
Proof.
  induction l as [|x l IH]; intros Hnd Hs; [constructor|].
  cbn [fmap list_fmap] in Hnd. apply NoDup_cons in Hnd as [Hx Hnd].
  apply StronglySorted_cons in Hs as [Hall Hs].
  assert (forall y, y ∈ l -> fst y <> fst x) as Hother.
  { intros y Hy Heq. apply Hx. rewrite <- Heq. apply list_elem_of_fmap. eauto. }
  cbn [fmap list_fmap]. constructor.
  - eapply StronglySorted_weaken; [|exact (IH Hnd Hs)].
    intros y z Hy Hz [Hlt | [Heq Hr]]; [left; exact Hlt|].
    right. split; [exact Heq|].
    rewrite !place_further by (apply Hother; assumption). lia.
  - apply Forall_forall. intros y Hy.
    pose proof (proj1 (Forall_forall _ _) Hall y Hy) as Hge. unfold value_ge in Hge.
    destruct (Qlt_le_dec (snd y) (snd x)) as [Hlt | Hle]; [left; exact Hlt|].
    right. split; [apply Qle_antisym; assumption|].
    rewrite place_here. lia.
Qed.

Lemma category_spending_by_complete sum fdf out :
  sort_values_descending (groupby_category sum fdf) out ->
  category_spending_by sum (place (fst <$> out)) fdf = out.
Proof.
  intros [Hperm Hs].
  assert (NoDup (fst <$> out)) as Hnd
    by (rewrite <- Hperm, groupby_category_keys; apply group_keys_NoDup).
  apply (StronglySorted_unique_strong (before (place (fst <$> out)))).
  - intros [k1 v1] [k2 v2] H1 H2 H12 H21.
    unfold category_spending_by in H1. rewrite merge_sort_Permutation, Hperm in H1.
    assert (k1 = k2) as ->.
    { apply (place_inj (fst <$> out)).
      - apply list_elem_of_fmap. exists (k1, v1). auto.
      - apply list_elem_of_fmap. exists (k2, v2). auto.
      - destruct H12 as [Hlt | [Heq Hr]], H21 as [Hlt' | [Heq' Hr']]; cbn [fst snd] in *.
        + exfalso. exact (Qlt_irrefl _ (Qlt_trans _ _ _ Hlt Hlt')).
        + exfalso. rewrite Heq' in Hlt. exact (Qlt_irrefl _ Hlt).
        + exfalso. rewrite Heq in Hlt'. exact (Qlt_irrefl _ Hlt').
        + lia. }
    rewrite <- Hperm in H1, H2.
    apply elem_of_groupby_category in H1 as [_ ->].
    apply elem_of_groupby_category in H2 as [_ ->]. reflexivity.
  - apply category_spending_by_sorted.
  - apply sorted_by_place; assumption.
  - unfold category_spending_by. rewrite merge_sort_Permutation. exact Hperm.
Qed.

(** C7, as the script has it.  [category_spending] holds one entry per
    distinct category of the filtered frame, the category with the sum of
    its amounts, and the sums never increase down the list.  Among entries
    of equal sum the order is the one the sorting routine leaves ([rank]):
    the script passes no second key, and the label plays no part in the
    order.  The results that the descending sort may give are exactly the
    lists [category_spending_by sum rank fdf]. *)
Theorem category_spending_descending (sum : list Q -> Q) fdf :
  (forall rank,
     StronglySorted value_ge (category_spending_by sum rank fdf) /\
     StronglySorted (before rank) (category_spending_by sum rank fdf) /\
     category_spending_by sum rank fdf ≡ₚ groupby_category sum fdf /\
     NoDup (fst <$> category_spending_by sum rank fdf) /\
     (forall k v, (k, v) ∈ category_spending_by sum rank fdf <->
                  k ∈ category <$> fdf /\ v = sum (group_amounts fdf k))) /\
  (forall out,
     sort_values_descending (groupby_category sum fdf) out <->
     exists rank, out = category_spending_by sum rank fdf).
Proof.
  split.
  - intros rank.
    destruct (category_spending_by_contract sum rank fdf) as [Hperm Hsorted].
    split; [exact Hsorted|]. split; [apply category_spending_by_sorted|].
    split; [symmetry; exact Hperm|]. split.
    + rewrite <- Hperm, groupby_category_keys. apply group_keys_NoDup.
    + intros k v. rewrite <- Hperm. apply elem_of_groupby_category.
  - intros out. split.
    + intros Hout. exists (place (fst <$> out)).
      symmetry. apply category_spending_by_complete, Hout.
    + intros [rank ->]. apply category_spending_by_contract.
Qed.

(** C7, as stated, fails: categories with the same sum need not come out
    in the order of their labels.  In [tied_frame] the sums are 1.5 for
    "A" and "B" and 2.5 for "C" and "D".  The order "D", "C", "B", "A" has
    the sums descending, so it is a result of the sort, the one with the
    later label first among equal sums; it is not the order by label. *)
Lemma equal_sums_not_ordered_by_label :
  groupby_category_sum tied_frame
  = [("A", 3 # 2); ("B", 3 # 2); ("C", 5 # 2); ("D", 5 # 2)]%Q /\
  category_spending_by Series_sum later_label_first tied_frame
  = [("D", 5 # 2); ("C", 5 # 2); ("B", 3 # 2); ("A", 3 # 2)]%Q /\
  category_spending tied_frame [("D", 5 # 2); ("C", 5 # 2); ("B", 3 # 2); ("A", 3 # 2)]%Q /\
  ~ StronglySorted sum_then_label
      [("D", 5 # 2); ("C", 5 # 2); ("B", 3 # 2); ("A", 3 # 2)]%Q.
Proof.
  assert (category_spending_by Series_sum later_label_first tied_frame
          = [("D", 5 # 2); ("C", 5 # 2); ("B", 3 # 2); ("A", 3 # 2)]%Q) as Heq
    by (vm_compute; reflexivity).
  split; [vm_compute; reflexivity|]. split; [exact Heq|]. split.
  - rewrite <- Heq. apply category_spending_by_ok.
  - intros Hs. inversion Hs as [|x l _ Hall]; subst.
    inversion Hall as [|y l' Hxy _]; subst.
    destruct Hxy as [Hlt | [_ Hle]]; [discriminate Hlt | exact Hle].
Qed.

Example category_spending_of_sample :
  category_spending_by Series_sum (fun _ => 0) sample_frame
  = [("Transport", 20%Q); ("Food", 15%Q)].
Proof. vm_compute. reflexivity. Qed.

(** * Further properties of the script *)

(** ** What [load_expenses] returns on any worksheet *)

Lemma convert_record_row_num r mk :
  convert_record r = Some mk -> forall n, row_num (mk n) = n.
Proof.
  unfold convert_record. intros Hmk n.
  destruct (record_get "Date" r ≫= cell_to_datetime) as [d|]; [|discriminate].
  destruct (record_get "Amount" r ≫= cell_to_numeric) as [a|]; [|discriminate].
  destruct (record_get "Category" r) as [c|]; [|discriminate].
  destruct (record_get "Description" r) as [s|]; [|discriminate].
  cbn in Hmk. injection Hmk as <-. reflexivity.
Qed.

Lemma row_nums_imap (mks : list (nat -> Expense)) k :
  Forall (fun mk => forall n, row_num (mk n) = n) mks ->
  row_num <$> imap (fun i (mk : nat -> Expense) => mk (k + i)) mks = seq k (length mks).
Proof.
  intros Hmks. revert k. induction Hmks as [|mk mks Hmk _ IH]; intros k; [reflexivity|].
  rewrite imap_cons. cbn [fmap list_fmap length seq]. rewrite Hmk, Nat.add_0_r. f_equal.
  rewrite <- (IH (S k)). f_equal. apply imap_ext. intros i x _. cbn. f_equal. lia.
Qed.

(** The positions of a loaded frame are 2, 3, 4, ... in order, whatever the
    worksheet holds: the record at index [i] of the frame has position
    [i + 2], and no two records share a position. *)
Theorem load_expenses_positions ws :
  row_num <$> load_expenses ws = seq 2 (length (load_expenses ws)) /\
  NoDup (row_num <$> load_expenses ws) /\
  (forall i e, load_expenses ws !! i = Some e -> row_num e = i + 2).
Proof.
  assert (row_num <$> load_expenses ws = seq 2 (length (load_expenses ws))) as Heq.
  { rewrite load_expenses_eq.
    destruct (get_all_records ws) as [data|]; [|reflexivity]. cbn [mbind option_bind].
    destruct (mapM convert_record data) as [mks|] eqn:Hm; [|reflexivity].
    rewrite length_imap. apply row_nums_imap.
    apply mapM_Some_1 in Hm. clear -Hm.
    induction Hm as [|r mk rs mks Hr _ IH]; constructor; [|exact IH].
    apply (convert_record_row_num r), Hr. }
  split; [exact Heq|]. split.
  - rewrite Heq. apply NoDup_seq.
  - intros i e He.
    assert ((row_num <$> load_expenses ws) !! i = Some (row_num e)) as Hi
      by (rewrite list_lookup_fmap, He; reflexivity).
    rewrite Heq in Hi. apply lookup_seq in Hi as [-> _]. lia.
Qed.

Lemma record_get_missing key (keys vals : list cell) :
  Text key ∉ keys -> record_get key (zip keys vals) = None.
Proof.
  revert vals. induction keys as [|k keys IH]; intros vals Hk; [reflexivity|].
  destruct vals as [|v vals]; [reflexivity|].
  cbn [zip zip_with record_get].
  fold (zip keys vals).
  rewrite IH by (intros Hin; apply Hk, list_elem_of_further, Hin).
  rewrite decide_False; [reflexivity|].
  intros ->. apply Hk, list_elem_of_here.
Qed.

(** A worksheet whose first row lacks the "Date" or the "Amount" heading
    loads as the empty frame (the [KeyError] is caught), however many data
    rows it holds. *)
Theorem load_expenses_without_column keys rows :
  Text "Date" ∉ keys \/ Text "Amount" ∉ keys ->
  load_expenses (keys :: rows) = [].
Proof.
  intros Hmiss. rewrite load_expenses_eq. unfold get_all_records.
  destruct (bool_decide (NoDup keys)); [|reflexivity]. cbn [mbind option_bind].
  destruct rows as [|r rows]; [reflexivity|].
  rewrite mapM_None_2; [reflexivity|].
  cbn [fmap list_fmap]. apply Exists_cons_hd.
  unfold convert_record.
  destruct Hmiss as [Hd | Ha].
  - rewrite (record_get_missing "Date") by assumption. reflexivity.
  - rewrite (record_get_missing "Amount") by assumption.
    destruct (record_get "Date" _ ≫= cell_to_datetime); reflexivity.
Qed.

Lemma load_expenses_without_column_witness :
  load_expenses
    [ [Text "When"; Text "Amount"; Text "Category"; Text "Description"];
      expense_row (mkdate 2024 1 1) 10 "Food" "lunch" ] = [].
Proof.
  apply load_expenses_without_column.
  left. intros Hin. apply list_elem_of_In in Hin. cbn in Hin.
  repeat (destruct Hin as [Hin | Hin]; [discriminate Hin|]). exact Hin.
Defined.

(** On a ledger worksheet every data row is loaded; and when the
    categories and descriptions of the ledger are sure to read back as
    texts, writing the loaded records back with [expense_row] gives exactly
    the data rows of the worksheet. *)
Theorem load_expenses_reads_every_row ws :
  ledger ws ->
  length (load_expenses ws) + 1 = length ws /\
  (text_ledger ws ->
   expenses_header ::
     ((fun e => expense_row (date e) (amount e) (category e) (description e))
        <$> load_expenses ws) = ws).
Proof.
  intros Hl. split.
  - apply ledger_sheet_of in Hl as (entries & -> & Hok).
    rewrite load_expenses_sheet_of by assumption.
    rewrite length_frame_of. unfold sheet_of. cbn [length]. rewrite length_fmap. lia.
  - clear Hl. intros (entries & -> & Hok & Htext)%text_ledger_sheet_of.
    rewrite load_expenses_sheet_of by assumption.
    unfold sheet_of. f_equal. apply list_eq. intros i.
    rewrite !list_lookup_fmap, lookup_frame_of.
    destruct (entries !! i) as [x|] eqn:Hx; [|reflexivity].
    cbn [fmap option_fmap option_map]. f_equal.
    apply expense_row_entry_expense.
    exact (proj1 (Forall_lookup _ _) Htext i x Hx).
Qed.

Lemma load_expenses_reads_every_row_witness :
  length (load_expenses sample_ledger) + 1 = length sample_ledger /\
  expenses_header ::
    ((fun e => expense_row (date e) (amount e) (category e) (description e))
       <$> load_expenses sample_ledger) = sample_ledger.
Proof.
  destruct (load_expenses_reads_every_row sample_ledger) as [Hlen Hrows].
  - sample_is_ledger.
  - split; [exact Hlen|]. apply Hrows. sample_is_ledger.
Defined.

Example numeric_description_is_not_written_back :
  let ws := [expenses_header; expense_row (mkdate 2024 1 1) 10 "Food" "007"] in
  ledger ws /\
  expenses_header ::
    ((fun e => expense_row (date e) (amount e) (category e) (description e))
       <$> load_expenses ws) <> ws.
Proof.
  cbv zeta. split; [sample_is_ledger|]. vm_compute. discriminate.
Qed.

(** ** How the mutations of the ledger compose *)

(** After [clear_all_expenses], on any worksheet, the reload is empty, and
    the first expense added afterwards, with a category and a description
    that are sure to read back as texts, is the only record, at
    position 2. *)
Theorem clear_then_add ws d a c s :
  valid_date d = true -> in_Timestamp_bounds d = true ->
  stays_text c = true -> stays_text s = true ->
  fst (clear_all_expenses ws) = true /\
  load_expenses (snd (clear_all_expenses ws)) = [] /\
  load_expenses (snd (add_expense (snd (clear_all_expenses ws)) d a c s))
  = [mkExpense d a c s 2].
Proof.
  intros Hv Hb Hc Hs. split; [reflexivity|]. split; [reflexivity|].
  change (snd (clear_all_expenses ws)) with (sheet_of []).
  rewrite add_expense_sheet_of. cbn [snd].
  rewrite load_expenses_sheet_of by (constructor; [split; assumption | constructor]).
  cbn [app frame_of frame_from imap]. rewrite entry_expense_text by assumption.
  reflexivity.
Qed.

Lemma clear_then_add_witness :
  fst (clear_all_expenses sample_ledger) = true /\
  load_expenses (snd (clear_all_expenses sample_ledger)) = [] /\
  load_expenses
    (snd (add_expense (snd (clear_all_expenses sample_ledger))
            (mkdate 2024 3 1) 12 "Food" "lunch"))
  = [mkExpense (mkdate 2024 3 1) 12 "Food" "lunch" 2].
Proof.
  apply (clear_then_add sample_ledger (mkdate 2024 3 1) 12 "Food" "lunch"); reflexivity.
Defined.

(** Deleting the record that [add_expense] has just appended, at the
    position it was given, restores the worksheet exactly. *)
Theorem add_then_delete_restores ws d a c s :
  ledger ws ->
  exists ws1,
    add_expense ws d a c s = (true, ws1) /\
    delete_expense ws1 (next_row_num (load_expenses ws)) = (true, ws).
Proof.
  intros (entries & -> & Hok)%ledger_sheet_of.
  exists (sheet_of (entries ++ [(d, a, c, s)])). split; [apply add_expense_sheet_of|].
  rewrite load_expenses_sheet_of, next_row_num_frame_of by assumption.
  unfold delete_expense. rewrite delete_rows_sheet_of, delete_middle, app_nil_r.
  reflexivity.
Qed.

Lemma add_then_delete_restores_witness :
  exists ws1,
    add_expense sample_ledger (mkdate 2024 3 1) 12 "Food" "lunch" = (true, ws1) /\
    delete_expense ws1 (next_row_num (load_expenses sample_ledger)) = (true, sample_ledger).
Proof.
  apply (add_then_delete_restores sample_ledger (mkdate 2024 3 1) 12 "Food" "lunch").
  sample_is_ledger.
Defined.

(** Two updates of the same position: the worksheet is the one a single
    update with the second set of fields produces. *)
Theorem update_twice_keeps_last ws e d1 a1 c1 s1 d2 a2 c2 s2 :
  ledger ws -> e ∈ load_expenses ws ->
  update_expense (snd (update_expense ws (row_num e) d1 a1 c1 s1)) (row_num e) d2 a2 c2 s2
  = update_expense ws (row_num e) d2 a2 c2 s2.
Proof.
  intros (entries & -> & Hok)%ledger_sheet_of He.
  rewrite load_expenses_sheet_of in He by assumption.
  apply elem_of_frame_of in He as (i & x & Hx & _ & ->).
  pose proof (lookup_lt_Some _ _ _ Hx) as Hi.
  unfold update_expense.
  change (expense_row d1 a1 c1 s1) with (entry_row (d1, a1, c1, s1)).
  change (expense_row d2 a2 c2 s2) with (entry_row (d2, a2, c2, s2)).
  rewrite (update_sheet_of entries i x (d1, a1, c1, s1) Hx). cbn [attempt snd].
  rewrite (update_sheet_of (<[i := (d1, a1, c1, s1)]> entries) i (d1, a1, c1, s1))
    by (apply list_lookup_insert_eq; assumption).
  rewrite (update_sheet_of entries i x (d2, a2, c2, s2) Hx).
  rewrite list_insert_insert_eq. reflexivity.
Qed.

Lemma update_twice_keeps_last_witness :
  update_expense
    (snd (update_expense sample_ledger 3 (mkdate 2024 2 1) 1 "Food" "a"))
    3 (mkdate 2024 2 2) 2 "Travel" "b"
  = update_expense sample_ledger 3 (mkdate 2024 2 2) 2 "Travel" "b".
Proof.
  apply (update_twice_keeps_last sample_ledger
           (mkExpense (mkdate 2024 1 2) 20 "Transport" "bus" 3)).
  - sample_is_ledger.
  - apply (list_elem_of_lookup_2 _ 1). reflexivity.
Defined.

(** On a ledger whose categories and descriptions are sure to read back
    as texts, saving a loaded record with its own date, amount, category
    and description leaves the worksheet unchanged. *)
Theorem update_with_own_fields ws e :
  text_ledger ws -> e ∈ load_expenses ws ->
  update_expense ws (row_num e) (date e) (amount e) (category e) (description e)
  = (true, ws).
Proof.
  intros (entries & -> & Hok & Htext)%text_ledger_sheet_of He.
  rewrite load_expenses_sheet_of in He by assumption.
  apply elem_of_frame_of in He as (i & x & Hx & -> & _).
  unfold update_expense. rewrite row_num_entry_expense.
  rewrite expense_row_entry_expense by exact (proj1 (Forall_lookup _ _) Htext i x Hx).
  rewrite (update_sheet_of entries i x x Hx), list_insert_id by assumption.
  reflexivity.
Qed.

Lemma update_with_own_fields_witness :
  update_expense sample_ledger 3 (mkdate 2024 1 2) 20 "Transport" "bus"
  = (true, sample_ledger).
Proof.
  apply (update_with_own_fields sample_ledger
           (mkExpense (mkdate 2024 1 2) 20 "Transport" "bus" 3)).
  - sample_is_ledger.
  - apply (list_elem_of_lookup_2 _ 1). reflexivity.
Defined.

(** The mutations keep a ledger a ledger: the header stays in row 1 and
    every data row stays readable.  This holds for [add_expense] with a
    date the date input can supply, for [delete_expense] at any position
    from 2 on (also one past the last record), for [update_expense] at the
    position of a loaded record, and for [clear_all_expenses]. *)
Theorem ledger_is_kept ws :
  ledger ws ->
  (forall d a c s,
     valid_date d = true -> in_Timestamp_bounds d = true ->
     ledger (snd (add_expense ws d a c s))) /\
  (forall n, 2 <= n -> ledger (snd (delete_expense ws n))) /\
  (forall e d a c s,
     e ∈ load_expenses ws ->
     valid_date d = true -> in_Timestamp_bounds d = true ->
     ledger (snd (update_expense ws (row_num e) d a c s))) /\
  ledger (snd (clear_all_expenses ws)).
Proof.
  intros Hl. split; [|split; [|split]].
  - intros d a c s Hv Hb.
    destruct (add_expense_ledger ws d a c s Hl Hv Hb) as (ws' & -> & Hl' & _). exact Hl'.
  - intros n Hn. apply ledger_sheet_of in Hl as (entries & -> & Hok).
    replace n with (2 + (n - 2)) by lia.
    unfold delete_expense. rewrite delete_rows_sheet_of. cbn [attempt snd].
    apply ledger_sheet_of. eexists. split; [reflexivity|]. apply Forall_delete, Hok.
  - intros e d a c s He Hv Hb.
    destruct (update_expense_ledger ws e d a c s Hl He Hv Hb) as (ws' & -> & Hl' & _).
    exact Hl'.
  - destruct (clear_all_expenses_ledger ws) as (ws' & -> & Hl' & _). exact Hl'.
Qed.

Lemma ledger_is_kept_witness :
  (forall d a c s,
     valid_date d = true -> in_Timestamp_bounds d = true ->
     ledger (snd (add_expense sample_ledger d a c s))) /\
  (forall n, 2 <= n -> ledger (snd (delete_expense sample_ledger n))) /\
  (forall e d a c s,
     e ∈ load_expenses sample_ledger ->
     valid_date d = true -> in_Timestamp_bounds d = true ->
     ledger (snd (update_expense sample_ledger (row_num e) d a c s))) /\
  ledger (snd (clear_all_expenses sample_ledger)).
Proof. apply (ledger_is_kept sample_ledger). sample_is_ledger. Defined.

(** ** Deleting and adding categories *)

Lemma label_row_find label labels :
  list_find (fun r : row => Text label ∈ r) ((fun l => [Text l]) <$> labels)
  = prod_map id (fun l => [Text l]) <$> list_find (fun l => l = label) labels.
Proof.
  rewrite list_find_fmap. f_equal.
  induction labels as [|l labels IH]; [reflexivity|].
  cbn [list_find]. rewrite IH.
  destruct (decide (l = label)) as [-> | Hne].
  - rewrite decide_True by (cbn; apply list_elem_of_here). reflexivity.
  - rewrite decide_False; [reflexivity|].
    cbn. intros Hin. apply list_elem_of_singleton in Hin. congruence.
Qed.

Lemma find_registry_of label labels :
  label <> "Category" ->
  find (registry_of labels) label
  = (fun '(i, _) => 2 + i) <$> list_find (fun l => l = label) labels.
Proof.
  intros Hne. unfold find, registry_of. cbn [list_find].
  rewrite decide_False.
  - rewrite label_row_find.
    destruct (list_find (fun l => l = label) labels) as [[i l]|]; reflexivity.
  - unfold categories_header. intros Hin. apply list_elem_of_singleton in Hin. congruence.
Qed.

(** [delete_category] with a label of the registry (other than the text of
    the heading, "Category") removes the first row holding that label and
    no other row: the registry read afterwards is the registry read before
    without the entry of that row. *)
Theorem delete_category_removes_first label labels :
  label <> "Category" -> label ∈ labels ->
  exists i,
    labels !! i = Some label /\
    (forall j, j < i -> labels !! j <> Some label) /\
    delete_category (registry_of labels) label = (true, registry_of (delete i labels)) /\
    load_categories (snd (delete_category (registry_of labels) label))
    = delete i (load_categories (registry_of labels)).
Proof.
  intros Hne Hin.
  destruct (list_find_elem_of (fun l => l = label) labels label Hin eq_refl)
    as [[i l] Hfind].
  pose proof Hfind as (Hi & -> & Hfirst)%list_find_Some.
  exists i. split; [exact Hi|]. split.
  - intros j Hj Hjl. exact (Hfirst j label Hjl Hj eq_refl).
  - assert (delete_category (registry_of labels) label
            = (true, registry_of (delete i labels))) as Hdel.
    { unfold delete_category. rewrite find_registry_of, Hfind by assumption.
      cbn [fmap option_fmap option_map]. unfold delete_rows, attempt, registry_of.
      cbn [plus]. rewrite list_fmap_delete. reflexivity. }
    split; [exact Hdel|]. rewrite Hdel. cbn [snd].
    rewrite !load_categories_registry_of. apply list_fmap_delete.
Qed.

Lemma delete_category_removes_first_witness :
  exists i,
    ["Food"; "2024"; "Food"] !! i = Some "Food" /\
    (forall j, j < i -> ["Food"; "2024"; "Food"] !! j <> Some "Food") /\
    delete_category (registry_of ["Food"; "2024"; "Food"]) "Food"
    = (true, registry_of (delete i ["Food"; "2024"; "Food"])) /\
    load_categories (snd (delete_category (registry_of ["Food"; "2024"; "Food"]) "Food"))
    = delete i (load_categories (registry_of ["Food"; "2024"; "Food"])).
Proof.
  apply (delete_category_removes_first "Food" ["Food"; "2024"; "Food"]).
  - discriminate.
  - apply list_elem_of_here.
Defined.

(** [delete_category] with a label that is not in the registry returns
    [False] and leaves the worksheet as it is. *)
Theorem delete_category_absent label labels :
  label <> "Category" -> label ∉ labels ->
  delete_category (registry_of labels) label = (false, registry_of labels).
Proof.
  intros Hne Hnotin. unfold delete_category.
  rewrite find_registry_of by assumption.
  assert (list_find (fun l => l = label) labels = None) as ->; [|reflexivity].
  apply list_find_None, Forall_forall. intros l Hl ->. exact (Hnotin Hl).
Qed.

Lemma delete_category_absent_witness :
  delete_category (registry_of ["Food"; "Groceries"]) "Travel"
  = (false, registry_of ["Food"; "Groceries"]).
Proof.
  apply (delete_category_absent "Travel" ["Food"; "Groceries"]).
  - discriminate.
  - intros Hin. apply list_elem_of_In in Hin. cbn in Hin.
    repeat (destruct Hin as [Hin | Hin]; [discriminate Hin|]). exact Hin.
Defined.

(** [delete_category] looks the label up in every row, the heading
    included.  So for the label "Category" the row found first is row 1:
    the heading is deleted, whatever the registry holds.  The first label
    then takes the place of the heading, and unless that label is
    "Category" itself the registry read afterwards is empty. *)
Theorem delete_category_named_like_heading rows :
  delete_category (categories_header :: rows) "Category" = (true, rows) /\
  (forall l labels,
     rows = (fun l => [Text l]) <$> (l :: labels) -> l <> "Category" ->
     load_categories rows = []).
Proof.
  split.
  - unfold delete_category, find. cbn [list_find].
    rewrite decide_True by apply list_elem_of_here. reflexivity.
  - intros l labels -> Hl. rewrite load_categories_eq. cbn [fmap list_fmap].
    unfold get_all_records. fold ((fun l => [Text l]) <$> labels).
    rewrite bool_decide_eq_true_2 by apply NoDup_singleton. cbn [mbind option_bind].
    destruct labels as [|l' labels]; [reflexivity|].
    rewrite mapM_None_2; [reflexivity|].
    cbn [fmap list_fmap]. apply Exists_cons_hd.
    apply record_get_missing. intros Hin. apply list_elem_of_singleton in Hin. congruence.
Qed.

Example delete_category_named_like_heading_example :
  load_categories
    (snd (delete_category (registry_of ["Food"; "Category"; "Travel"]) "Category")) = [].
Proof. reflexivity. Qed.

Example delete_category_beside_a_number :
  load_categories (snd (delete_category (registry_of ["2024"; "Food"; "Travel"]) "Food"))
  = [Number 2024; Text "Travel"].
Proof. vm_compute. reflexivity. Qed.

Lemma add_category_form_cases labels btn label :
  stays_text label = true ->
  snd (add_category_form (load_categories (registry_of labels)) (registry_of labels)
         btn label) = registry_of labels \/
  ((Text label ∉ load_categories (registry_of labels)) /\
   snd (add_category_form (load_categories (registry_of labels)) (registry_of labels)
          btn label) = registry_of (labels ++ [label]) /\
   load_categories (registry_of (labels ++ [label]))
   = load_categories (registry_of labels) ++ [Text label]).
Proof.
  intros Hl. unfold add_category_form.
  destruct (btn && negb (String.eqb label "")); [|left; reflexivity].
  destruct (decide (Text label ∈ load_categories (registry_of labels)))
    as [Hin | Hnotin].
  - rewrite bool_decide_eq_true_2 by assumption. left. reflexivity.
  - rewrite bool_decide_eq_false_2 by assumption. right. split; [assumption|].
    rewrite add_category_registry_of. split; [reflexivity|].
    rewrite !load_categories_registry_of, fmap_app. cbn [fmap list_fmap].
    rewrite (stays_text_numericise label Hl). reflexivity.
Qed.

(** The "Add New Category" form keeps the values read from the registry
    distinct, for a label that is sure to read back as a text: if no value
    occurs twice before a run of the form, none does after it, whether or
    not the button is pressed. *)
Theorem add_category_form_keeps_labels_distinct labels btn label :
  stays_text label = true ->
  NoDup (load_categories (registry_of labels)) ->
  NoDup (load_categories
           (snd (add_category_form (load_categories (registry_of labels))
                   (registry_of labels) btn label))).
Proof.
  intros Hl Hnd.
  destruct (add_category_form_cases labels btn label Hl) as [-> | (Hnotin & -> & ->)];
    [assumption|].
  apply NoDup_app. split; [assumption|]. split; [|apply NoDup_singleton].
  intros x Hx Hx'. apply list_elem_of_singleton in Hx'. subst x. exact (Hnotin Hx).
Qed.

Lemma add_category_form_keeps_labels_distinct_witness :
  NoDup (load_categories
           (snd (add_category_form (load_categories (registry_of ["Food"; "2024"]))
                   (registry_of ["Food"; "2024"]) true "Pets"))).
Proof.
  apply (add_category_form_keeps_labels_distinct ["Food"; "2024"] true "Pets").
  - reflexivity.
  - apply NoDup_ListNoDup. vm_compute.
    repeat (constructor; [cbn; intuition discriminate|]). constructor.
Defined.

(** Submitting the same non-empty label twice, a label that is sure to
    read back as a text: after the first run the label is in the registry,
    and the second run is rejected as a duplicate and changes nothing. *)
Theorem add_category_form_twice labels label :
  label <> "" -> stays_text label = true ->
  let ws1 := snd (add_category_form (load_categories (registry_of labels))
                    (registry_of labels) true label) in
  Text label ∈ load_categories ws1 /\
  add_category_form (load_categories ws1) ws1 true label = (DuplicateCategory, ws1).
Proof.
  intros Hne Hl ws1.
  assert (Text label ∈ load_categories ws1) as Hin.
  { subst ws1. unfold add_category_form.
    assert (String.eqb label "" = false) as -> by (apply String.eqb_neq; assumption).
    cbn [andb negb].
    destruct (decide (Text label ∈ load_categories (registry_of labels)))
      as [Hin | Hnotin].
    - rewrite bool_decide_eq_true_2 by assumption. exact Hin.
    - rewrite bool_decide_eq_false_2 by assumption.
      rewrite add_category_registry_of. cbn [snd].
      rewrite load_categories_registry_of, fmap_app, elem_of_app. right.
      cbn [fmap list_fmap]. rewrite (stays_text_numericise label Hl).
      apply list_elem_of_here. }
  split; [exact Hin|].
  unfold add_category_form at 1.
  assert (String.eqb label "" = false) as -> by (apply String.eqb_neq; assumption).
  cbn [andb negb]. rewrite bool_decide_eq_true_2 by assumption. reflexivity.
Qed.

Lemma add_category_form_twice_witness :
  let ws1 := snd (add_category_form (load_categories (registry_of ["Food"]))
                    (registry_of ["Food"]) true "Pets") in
  Text "Pets" ∈ load_categories ws1 /\
  add_category_form (load_categories ws1) ws1 true "Pets" = (DuplicateCategory, ws1).
Proof.
  apply (add_category_form_twice ["Food"] "Pets").
  - discriminate.
  - reflexivity.
Defined.

(** ** The filters as the page first shows them *)

#[global] Instance date_le_reflexive : Reflexive date_le.
Proof. intros a. unfold date_le. lia. Qed.

#[global] Instance date_le_transitive : Transitive date_le.
Proof. intros a b c. unfold date_le. lia. Qed.

#[global] Instance date_le_total : Total date_le.
Proof. intros a b. unfold date_le. lia. Qed.

Lemma min_date_le_l a b : date_le (min_date a b) a.
Proof.
  unfold min_date. destruct (date_leb a b) eqn:Hab; [reflexivity|].
  destruct (total date_le a b) as [H | H]; [|exact H].
  apply date_leb_le in H. congruence.
Qed.

Lemma min_date_le_r a b : date_le (min_date a b) b.
Proof.
  unfold min_date. destruct (date_leb a b) eqn:Hab; [|reflexivity].
  apply date_leb_le, Hab.
Qed.

Lemma max_date_ge_l a b : date_le a (max_date a b).
Proof.
  unfold max_date. destruct (date_leb a b) eqn:Hab; [|reflexivity].
  apply date_leb_le, Hab.
Qed.

Lemma max_date_ge_r a b : date_le b (max_date a b).
Proof.
  unfold max_date. destruct (date_leb a b) eqn:Hab; [reflexivity|].
  destruct (total date_le a b) as [H | H]; [|exact H].
  apply date_leb_le in H. congruence.
Qed.

Lemma earliest_is_lower_bound d0 (l : list calendar_date) x :
  x = d0 \/ x ∈ l -> date_le (foldr min_date d0 l) x.
Proof.
  induction l as [|y l IH]; cbn [foldr].
  - intros [-> | Hin]; [reflexivity | inversion Hin].
  - rewrite elem_of_cons. intros [Hx | [-> | Hin]].
    + etransitivity; [apply min_date_le_r | apply IH; left; exact Hx].
    + apply min_date_le_l.
    + etransitivity; [apply min_date_le_r | apply IH; right; exact Hin].
Qed.

Lemma latest_is_upper_bound d0 (l : list calendar_date) x :
  x = d0 \/ x ∈ l -> date_le x (foldr max_date d0 l).
Proof.
  induction l as [|y l IH]; cbn [foldr].
  - intros [-> | Hin]; [reflexivity | inversion Hin].
  - rewrite elem_of_cons. intros [Hx | [-> | Hin]].
    + etransitivity; [apply IH; left; exact Hx | apply max_date_ge_r].
    + apply max_date_ge_l.
    + etransitivity; [apply IH; right; exact Hin | apply max_date_ge_r].
Qed.

(** With the inputs as the page first shows them (the date range from the
    earliest to the latest date of the frame, all categories of the frame
    selected, minimum amount 0) the filter keeps every record of a frame
    whose amounts are not negative. *)
Theorem default_filter_keeps_everything df :
  df <> [] -> (forall e, e ∈ df -> (0 <= amount e)%Q) ->
  default_filtered_df df = Some df.
Proof.
  intros Hne Hpos. destruct df as [|e0 df']; [congruence|].
  unfold default_filtered_df, default_date_range. cbn [mbind option_bind]. f_equal.
  unfold filtered_df.
  rewrite (List_filter_decide _
             (selected (foldr min_date (date e0) (date <$> df'),
                        foldr max_date (date e0) (date <$> df'))
                (available_categories (e0 :: df')) default_min_amount))
    by (intros e; apply mask_selected).
  apply filter_Forall_id, Forall_forall. intros e He.
  assert (date e = date e0 \/ date e ∈ date <$> df') as Hd.
  { apply elem_of_cons in He as [-> | He]; [left; reflexivity|].
    right. apply list_elem_of_fmap. eauto. }
  unfold selected. cbn [fst snd]. repeat split.
  - apply earliest_is_lower_bound, Hd.
  - apply latest_is_upper_bound, Hd.
  - apply elem_of_unique, list_elem_of_fmap. eauto.
  - apply Hpos, He.
Qed.

Lemma default_filter_keeps_everything_witness :
  default_filtered_df sample_frame = Some sample_frame.
Proof.
  apply (default_filter_keeps_everything sample_frame).
  - discriminate.
  - intros e He. apply list_elem_of_In in He. cbn in He.
    repeat (destruct He as [<- | He]; [discriminate|]). destruct He.
Defined.

(** ** Sums per day *)

Lemma daily_spending_dates fdf :
  fst <$> daily_spending fdf = merge_sort date_le (unique (date <$> fdf)).
Proof. unfold daily_spending. rewrite <- list_fmap_compose. apply list_fmap_id. Qed.

(** The daily sums of the trend chart are taken over a partition of the
    filtered frame: every record belongs to the group of its date, and the
    amounts of the groups of the listed dates, taken together, are the
    amounts of the frame, each as often as it occurs.  So the daily sums
    and the total add the same amounts. *)
Theorem daily_spending_partition fdf :
  (forall e, e ∈ fdf ->
     date e ∈ fst <$> daily_spending fdf /\ amount e ∈ day_amounts fdf (date e)) /\
  concat (day_amounts fdf <$> (fst <$> daily_spending fdf)) ≡ₚ amount <$> fdf.
Proof.
  assert (forall e, e ∈ fdf -> date e ∈ fst <$> daily_spending fdf) as Hcover.
  { intros e He. rewrite daily_spending_dates, merge_sort_Permutation.
    apply elem_of_unique, list_elem_of_fmap. eauto. }
  split.
  - intros e He. split; [apply Hcover, He|].
    unfold day_amounts. apply list_elem_of_fmap. exists e. split; [reflexivity|].
    apply elem_of_List_filter. split; [exact He|].
    apply bool_decide_eq_true_2. reflexivity.
  - apply (groups_partition date fdf); [|exact Hcover].
    rewrite daily_spending_dates, merge_sort_Permutation. apply NoDup_unique.
Qed.

(** The trend chart has one point per distinct date of the filtered frame,
    the dates in ascending order without repetition, each with the sum of
    the amounts of that date; the number of points is the number of
    distinct dates, the count the "Daily Average" divides by. *)
Theorem daily_spending_one_point_per_day fdf :
  StronglySorted date_le (fst <$> daily_spending fdf) /\
  NoDup (fst <$> daily_spending fdf) /\
  (forall d v, (d, v) ∈ daily_spending fdf <->
               (exists e, e ∈ fdf /\ date e = d) /\ v = Series_sum (day_amounts fdf d)) /\
  length (daily_spending fdf) = length (unique (date <$> fdf)) /\
  Nat.max (length (daily_spending fdf)) 1 = daily_divisor fdf.
Proof.
  assert (length (daily_spending fdf) = length (unique (date <$> fdf))) as Hlen.
  { unfold daily_spending. rewrite length_fmap, merge_sort_Permutation. reflexivity. }
  split; [|split; [|split; [|split]]].
  - rewrite daily_spending_dates. apply StronglySorted_merge_sort; apply _.
  - rewrite daily_spending_dates, merge_sort_Permutation. apply NoDup_unique.
  - intros d v. unfold daily_spending. rewrite list_elem_of_fmap. split.
    + intros (d' & Heq & Hin). injection Heq as -> ->.
      rewrite merge_sort_Permutation in Hin.
      apply elem_of_unique, list_elem_of_fmap in Hin as (e & -> & He).
      split; [eauto | reflexivity].
    + intros [(e & He & <-) ->]. exists (date e). split; [reflexivity|].
      rewrite merge_sort_Permutation. apply elem_of_unique, list_elem_of_fmap. eauto.
  - exact Hlen.
  - unfold daily_divisor. rewrite Hlen. reflexivity.
Qed.

Example daily_spending_of_sample :
  daily_spending sample_frame
  = [(mkdate 2024 1 1, 10%Q); (mkdate 2024 1 2, 20%Q); (mkdate 2024 1 3, 5%Q)].
Proof. reflexivity. Qed.

(** ** The highest expense *)

Lemma idxmax_from_spec (s pre : list Q) (best_i : nat) (best : Q) :
  pre !! best_i = Some best ->
  (forall x, x ∈ pre -> (x <= best)%Q) ->
  (forall j x, j < best_i -> pre !! j = Some x -> (x < best)%Q) ->
  exists m,
    (pre ++ s) !! idxmax_from (length pre) best_i best s = Some m /\
    (forall x, x ∈ pre ++ s -> (x <= m)%Q) /\
    (forall j x, j < idxmax_from (length pre) best_i best s ->
                 (pre ++ s) !! j = Some x -> (x < m)%Q).
Proof.
  revert pre best_i best. induction s as [|x s IH]; intros pre best_i best Hb Hmax Hfirst.
  - cbn [idxmax_from]. rewrite app_nil_r. exists best. auto.
  - cbn [idxmax_from].
    pose proof (lookup_lt_Some _ _ _ Hb) as Hlt.
    replace (S (length pre)) with (length (pre ++ [x]))
      by (rewrite length_app; cbn [length]; lia).
    replace (pre ++ x :: s) with ((pre ++ [x]) ++ s) by (rewrite <- app_assoc; reflexivity).
    destruct (Qle_bool x best) eqn:Hx.
    + apply Qle_bool_iff in Hx. apply IH.
      * rewrite lookup_app_l by assumption. exact Hb.
      * intros y [Hy | Hy%list_elem_of_singleton]%elem_of_app; [auto | subst y; exact Hx].
      * intros j y Hj Hy. rewrite lookup_app_l in Hy by lia. eauto.
    + assert (best < x)%Q as Hbx.
      { apply Qnot_le_lt. intros Hle. apply Qle_bool_iff in Hle. congruence. }
      apply IH.
      * rewrite lookup_app_r, Nat.sub_diag by lia. reflexivity.
      * intros y [Hy | Hy%list_elem_of_singleton]%elem_of_app.
        -- apply Qlt_le_weak. eapply Qle_lt_trans; [apply Hmax, Hy | exact Hbx].
        -- subst y. apply Qle_refl.
      * intros j y Hj Hy. rewrite lookup_app_l in Hy by assumption.
        eapply Qle_lt_trans; [|exact Hbx].
        apply Hmax, (list_elem_of_lookup_2 _ j), Hy.
Qed.

(** On a frame with at least one row, [most_expensive] is a record of the
    frame whose amount no record exceeds, and it is the first such record:
    every record before it has a strictly smaller amount. *)
Theorem most_expensive_is_first_maximum df :
  df <> [] ->
  exists i e,
    most_expensive df = Some e /\ df !! i = Some e /\
    (forall x, x ∈ df -> (amount x <= amount e)%Q) /\
    (forall j x, j < i -> df !! j = Some x -> (amount x < amount e)%Q).
Proof.
  intros Hne. destruct df as [|e0 df']; [congruence|].
  destruct (idxmax_from_spec (amount <$> df') [amount e0] 0 (amount e0))
    as (m & Hm & Hmax & Hfirst).
  { reflexivity. }
  { intros x Hx%list_elem_of_singleton. subst x. apply Qle_refl. }
  { intros j x Hj. lia. }
  cbn [length] in Hm, Hfirst.
  change ([amount e0] ++ (amount <$> df')) with (amount <$> (e0 :: df')) in Hm, Hmax, Hfirst.
  set (i := idxmax_from 1 0 (amount e0) (amount <$> df')) in *.
  rewrite list_lookup_fmap in Hm.
  destruct ((e0 :: df') !! i) as [e|] eqn:He; [|discriminate].
  injection Hm as <-. exists i, e. split; [|split; [exact He | split]].
  - unfold most_expensive. cbn [fmap list_fmap idxmax mbind option_bind].
    fold (amount <$> df'). fold i. exact He.
  - intros x Hx. apply Hmax, list_elem_of_fmap. eauto.
  - intros j x Hj Hx. apply (Hfirst j); [exact Hj|].
    rewrite list_lookup_fmap, Hx. reflexivity.
Qed.

Lemma most_expensive_is_first_maximum_witness :
  exists i e,
    most_expensive sample_frame = Some e /\ sample_frame !! i = Some e /\
    (forall x, x ∈ sample_frame -> (amount x <= amount e)%Q) /\
    (forall j x, j < i -> sample_frame !! j = Some x -> (amount x < amount e)%Q).
Proof. apply (most_expensive_is_first_maximum sample_frame). discriminate. Defined.

Example most_expensive_of_sample :
  most_expensive sample_frame = Some (mkExpense (mkdate 2024 1 2) 20 "Transport" "bus" 3).
Proof. reflexivity. Qed.

Example most_expensive_of_equal_amounts :
  most_expensive [ mkExpense (mkdate 2024 1 1) 7 "Food" "a" 2;
                   mkExpense (mkdate 2024 1 2) 7 "Food" "b" 3 ]
  = Some (mkExpense (mkdate 2024 1 1) 7 "Food" "a" 2).
Proof. reflexivity. Qed.

(** ** Rankings *)







(** ** The edit form and the confirmation buttons *)

(** The category the edit form starts with is the category of the selected
    record when the registry still holds it (its first occurrence), and the
    first category of the registry when it does not. *)
Theorem edit_form_category categories category :
  (Text category ∈ categories ->
   categories !! edit_category_index categories category = Some (Text category) /\
   forall j, j < edit_category_index categories category ->
             categories !! j <> Some (Text category)) /\
  (Text category ∉ categories ->
   categories !! edit_category_index categories category = head categories).
Proof.
  unfold edit_category_index. split.
  - intros Hin. rewrite bool_decide_eq_true_2 by assumption.
    destruct (list_find_elem_of (fun c => c = Text category) categories _ Hin eq_refl)
      as [[i c] Hfind].
    rewrite Hfind. cbn [fmap option_fmap option_map default fst].
    apply list_find_Some in Hfind as (Hi & -> & Hfirst). split; [exact Hi|].
    intros j Hj Hjc. exact (Hfirst j _ Hjc Hj eq_refl).
  - intros Hnotin. rewrite bool_decide_eq_false_2 by assumption.
    destruct categories; reflexivity.
Qed.

Example edit_form_category_deleted :
  [Text "Food"; Text "Travel"] !! edit_category_index [Text "Food"; Text "Travel"] "Pets"
  = Some (Text "Food").
Proof. reflexivity. Qed.

(** The "Delete This Transaction" button deletes nothing.  A press while
    the stored confirmation is not for the selected transaction only
    stores the confirmation.  The press that follows hands the position to
    [delete_expense] as the [numpy.int64] it is in the frame; the request
    cannot be encoded, [delete_expense] returns [False] and the page
    reports the failure.  The worksheet is as it was and the confirmation
    stays, so every further press fails the same way.  Called with the
    position of a loaded record as a Python [int], [delete_expense] does
    delete. *)
Theorem delete_button_deletes_nothing ws confirm_delete selected_idx n :
  snd (fst (delete_transaction_button confirm_delete selected_idx n ws)) = ws /\
  (confirm_delete <> Some selected_idx ->
   delete_transaction_button confirm_delete selected_idx n ws
   = (Some selected_idx, ws, AskedToConfirm)) /\
  delete_transaction_button (Some selected_idx) selected_idx n ws
  = (Some selected_idx, ws, ExecutionFailed) /\
  delete_expense ws (NumpyInt64 n) = (false, ws) /\
  (forall e, ledger ws -> e ∈ load_expenses ws ->
             fst (delete_expense ws (row_num e)) = true).
Proof.
  unfold delete_transaction_button. split; [|split; [|split; [|split]]].
  - destruct (bool_decide (confirm_delete = Some selected_idx)); reflexivity.
  - intros Hc. rewrite bool_decide_eq_false_2 by assumption. reflexivity.
  - rewrite bool_decide_eq_true_2 by reflexivity. reflexivity.
  - reflexivity.
  - intros e Hl He.
    destruct (delete_expense_ledger ws e Hl He) as (ws' & -> & _). reflexivity.
Qed.

Example delete_button_on_sample :
  delete_transaction_button None 1 3 sample_ledger = (Some 1, sample_ledger, AskedToConfirm) /\
  delete_transaction_button (Some 1) 1 3 sample_ledger
  = (Some 1, sample_ledger, ExecutionFailed) /\
  fst (delete_expense sample_ledger 3) = true.
Proof. repeat split. Qed.

Lemma clear_run_cases events confirm_clear ws :
  snd (clear_run (confirm_clear, ws) events) = ws \/
  (confirm_clear = true /\ exists rest, events = PressClearAllData :: rest) \/
  (exists before rest,
     events = before ++ PressClearAllData :: PressClearAllData :: rest).
Proof.
  revert confirm_clear ws. induction events as [|ev events IH]; intros confirm_clear ws.
  - left. reflexivity.
  - destruct ev.
    + destruct confirm_clear.
      * right. left. eauto.
      * change (clear_run (false, ws) (PressClearAllData :: events))
          with (clear_run (true, ws) events).
        destruct (IH true ws) as [H | [[_ (rest & ->)] | (before & rest & ->)]].
        -- left. exact H.
        -- right. right. exists [], rest. reflexivity.
        -- right. right. exists (PressClearAllData :: before), rest. reflexivity.
    + assert (clear_run (confirm_clear, ws) (PressCancel :: events)
              = clear_run (false, ws) events) as -> by (destruct confirm_clear; reflexivity).
      destruct (IH false ws) as [H | [[Hc _] | (before & rest & ->)]].
      * left. exact H.
      * discriminate Hc.
      * right. right. exists (PressCancel :: before), rest. reflexivity.
Qed.

(** Starting with no confirmation pending, whatever sequence of presses of
    "Clear All Data" and "Cancel" follows, the worksheet is changed only if
    "Clear All Data" was pressed twice in a row; and two presses in a row
    leave the header alone, so the reload is empty. *)
Theorem clear_takes_two_presses_in_a_row ws events :
  (snd (clear_run (false, ws) events) <> ws ->
   exists before rest,
     events = before ++ PressClearAllData :: PressClearAllData :: rest) /\
  clear_run (false, ws) [PressClearAllData; PressClearAllData]
  = (false, [expenses_header]) /\
  clear_run (false, ws) [PressClearAllData; PressCancel; PressClearAllData] = (true, ws).
Proof.
  split; [|split; reflexivity].
  intros Hchanged.
  destruct (clear_run_cases events false ws) as [H | [[Hc _] | H]].
  - contradiction.
  - discriminate Hc.
  - exact H.
Qed.
